(** * Bitcoin Calculadora: the price fetcher, the unit conversions, the
      display of amounts and the share link of [src/js/main.js]

    The development embeds the JavaScript of [main.js] in Gallina:

    - JavaScript values are an inductive type ([value]); numbers are the
      three special doubles [NaN], [+Infinity], [-Infinity] and the finite
      ones.  Finite doubles are idealised as exact rationals: rounding,
      overflow, underflow and the sign of zero of IEEE 754 are not modelled.
      The theorems on arithmetic are therefore about what rounding leaves
      as it is: the guards, the sign, the order and the integrality of the
      results, and which quotient or product a function computes.  Nothing
      is proved about the round trips of the converters or about sums of
      conversions, which hold up to the rounding of doubles only.
    - [fetchBtcPrice] and the converters run in a state-and-exception monad
      [M]: the state holds the two module variables [btcPrice] and
      [currentApiSource], the document, and three logs (the requests issued,
      the events dispatched, the console warnings).  A throw keeps the state
      reached so far, as in JavaScript.
    - The network is an oracle: the answer to the [k]-th request ever issued,
      given its URL.  Every awaited promise settles, and one call of
      [fetchBtcPrice] runs to its end before the next one starts.
    - The page provides [document], [window] and [CustomEvent]; the
      listeners of the event do not assign the variables of the module.
    - A string holds the UTF-8 bytes of well-formed text.  What
      [toLocaleString] prints is kept symbolic; [toFixed], which works on
      the exact value of its number, is spelled out below [10^21]. *)

From Stdlib Require Import ZArith QArith Qround Qabs Lia Lqa.
From Stdlib Require Import Bool List String Ascii.
Import ListNotations.

Local Open Scope string_scope.
Set Warnings "-register-all".

(** ** Numbers *)

Inductive number : Type :=
| NaN
| PInf
| NInf
| Fin (q : Q).

Definition num_sign (n : number) : Z :=
  match n with
  | NaN => 0
  | PInf => 1
  | NInf => -1
  | Fin q => Z.sgn (Qnum q)
  end.

(** The infinity of a given sign; a zero sign stands for an undefined
    form such as [0 * Infinity]. *)
Definition inf_of_sign (s : Z) : number :=
  if (0 <? s)%Z then PInf else if (s <? 0)%Z then NInf else NaN.

Definition is_zero (q : Q) : bool := Qeq_bool q 0.

(** [a * b]; the product of two finite numbers is the exact one. *)
Definition num_mul (a b : number) : number :=
  match a, b with
  | NaN, _ | _, NaN => NaN
  | Fin x, Fin y => Fin (x * y)
  | _, _ => inf_of_sign (num_sign a * num_sign b)
  end.

(** [a / b]; a zero divisor is [+0], and the quotient of two finite
    numbers is the exact one. *)
Definition num_div (a b : number) : number :=
  match a, b with
  | NaN, _ | _, NaN => NaN
  | Fin x, Fin y => if is_zero y then inf_of_sign (num_sign a) else Fin (x / y)
  | Fin _, _ => Fin 0
  | _, Fin y => if is_zero y then a else inf_of_sign (num_sign a * num_sign b)
  | _, _ => NaN
  end.

(** [a <= b] *)
Definition num_le (a b : number) : bool :=
  match a, b with
  | NaN, _ | _, NaN => false
  | NInf, _ => true
  | _, PInf => true
  | Fin x, Fin y => Qle_bool x y
  | _, _ => false
  end.

(** [Math.round]: the nearest integer, halves towards [+Infinity]. *)
Definition Math_round (a : number) : number :=
  match a with
  | Fin x => Fin (inject_Z (Qfloor (x + (1 # 2))))
  | _ => a
  end.

Definition num_neg (a : number) : number :=
  match a with
  | NaN => NaN
  | PInf => NInf
  | NInf => PInf
  | Fin x => Fin (- x)
  end.

(** ** Numeric strings

    The white space and line terminators of ECMAScript
    ([StrWhiteSpaceChar]), in the UTF-8 bytes of a string: the ASCII ones
    take one byte, U+00A0 takes two, and U+1680, U+2000 to U+200A, U+2028,
    U+2029, U+202F, U+205F, U+3000 and U+FEFF take three. *)

Definition is_ws (c : ascii) : bool :=
  let n := nat_of_ascii c in
  ((9 <=? n) && (n <=? 13) || (n =? 32))%nat.

(** U+00A0 *)
Definition is_ws2 (c d : ascii) : bool :=
  ((nat_of_ascii c =? 194) && (nat_of_ascii d =? 160))%nat.

Definition is_ws3 (c d e : ascii) : bool :=
  let c := nat_of_ascii c in
  let d := nat_of_ascii d in
  let e := nat_of_ascii e in
  ((c =? 225) && (d =? 154) && (e =? 128)
   || (c =? 226) && (d =? 128)
      && ((128 <=? e) && (e <=? 138) || (e =? 168) || (e =? 169) || (e =? 175))
   || (c =? 226) && (d =? 129) && (e =? 159)
   || (c =? 227) && (d =? 128) && (e =? 128)
   || (c =? 239) && (d =? 187) && (e =? 191))%nat.

Fixpoint skip_ws (s : string) : string :=
  match s with
  | String c r1 =>
      if is_ws c then skip_ws r1 else
      match r1 with
      | String d r2 =>
          if is_ws2 c d then skip_ws r2 else
          match r2 with
          | String e r3 => if is_ws3 c d e then skip_ws r3 else s
          | EmptyString => s
          end
      | EmptyString => s
      end
  | EmptyString => s
  end.

Fixpoint all_ws (s : string) : bool :=
  match s with
  | String c r1 =>
      if is_ws c then all_ws r1 else
      match r1 with
      | String d r2 =>
          if is_ws2 c d then all_ws r2 else
          match r2 with
          | String e r3 => is_ws3 c d e && all_ws r3
          | EmptyString => false
          end
      | EmptyString => false
      end
  | EmptyString => true
  end.

(** The value of a digit in the given radix (at most 16). *)
Definition digit_of (radix : Z) (c : ascii) : option Z :=
  let n := Z.of_nat (nat_of_ascii c) in
  let d := if (48 <=? n)%Z && (n <=? 57)%Z then (n - 48)%Z
           else if (97 <=? n)%Z && (n <=? 102)%Z then (n - 87)%Z
           else if (65 <=? n)%Z && (n <=? 70)%Z then (n - 55)%Z
           else 16%Z in
  if (d <? radix)%Z then Some d else None.

(** The longest run of digits at the head of [s], and what follows it. *)
Fixpoint take_digits (radix : Z) (s : string) : list Z * string :=
  match s with
  | String c rest =>
      match digit_of radix c with
      | Some d => let (ds, r) := take_digits radix rest in (d :: ds, r)
      | None => ([], s)
      end
  | EmptyString => ([], s)
  end.

Definition Z_of_digits (radix : Z) (ds : list Z) : Z :=
  fold_left (fun acc d => acc * radix + d)%Z ds 0%Z.

Definition strip_prefix (p s : string) : option string :=
  if String.prefix p s
  then Some (substring (String.length p) (String.length s - String.length p) s)
  else None.

(** [ExponentPart] at the head of [s]: its value and what follows it, or
    exponent zero and [s] itself when there is none. *)
Definition take_exponent (s : string) : Z * string :=
  match s with
  | String c rest =>
      if Ascii.eqb c "e"%char || Ascii.eqb c "E"%char then
        let (sg, body) :=
          match rest with
          | String d rest' =>
              if Ascii.eqb d "+"%char then (1%Z, rest')
              else if Ascii.eqb d "-"%char then ((-1)%Z, rest')
              else (1%Z, rest)
          | EmptyString => (1%Z, rest)
          end in
        match take_digits 10 body with
        | ([], _) => (0%Z, s)
        | (ds, r) => ((sg * Z_of_digits 10 ds)%Z, r)
        end
      else (0%Z, s)
  | EmptyString => (0%Z, s)
  end.

(** The longest prefix of [s] that is a [StrUnsignedDecimalLiteral]: its
    value and what follows it. *)
Definition scan_unsigned (s : string) : option (number * string) :=
  match strip_prefix "Infinity" s with
  | Some r => Some (PInf, r)
  | None =>
      let (int_ds, r1) := take_digits 10 s in
      let '(dot, frac_ds, r2) :=
        match r1 with
        | String c r =>
            if Ascii.eqb c "."%char
            then let (ds, r') := take_digits 10 r in (true, ds, r')
            else (false, [], r1)
        | EmptyString => (false, [], r1)
        end in
      match int_ds, frac_ds with
      | [], [] => None
      | _, _ =>
          let (e, r3) := take_exponent r2 in
          let mant := Z_of_digits 10 (int_ds ++ frac_ds) in
          let scale := (e - Z.of_nat (List.length frac_ds))%Z in
          Some (Fin (inject_Z mant * (10 # 1) ^ scale), r3)
      end
  end.

(** The longest prefix that is a [StrDecimalLiteral] (an optional sign, then
    an unsigned literal). *)
Definition scan_decimal (s : string) : option (number * string) :=
  match s with
  | String c rest =>
      if Ascii.eqb c "+"%char then scan_unsigned rest
      else if Ascii.eqb c "-"%char then
        match scan_unsigned rest with
        | Some (n, r) => Some (num_neg n, r)
        | None => None
        end
      else scan_unsigned s
  | EmptyString => None
  end.

(** [parseFloat] of a string: leading white space is dropped, the longest
    decimal prefix is read and the rest is ignored.  The number is the
    exact value of the decimal text. *)
Definition parseFloat_string (s : string) : number :=
  match scan_decimal (skip_ws s) with
  | Some (n, _) => n
  | None => NaN
  end.

(** A [NonDecimalIntegerLiteral] ([0x], [0o], [0b]) spanning all of [s]
    but trailing white space. *)
Definition scan_radix (s : string) : option number :=
  match s with
  | String z (String x rest) =>
      let radix :=
        if Ascii.eqb x "x"%char || Ascii.eqb x "X"%char then 16%Z
        else if Ascii.eqb x "o"%char || Ascii.eqb x "O"%char then 8%Z
        else if Ascii.eqb x "b"%char || Ascii.eqb x "B"%char then 2%Z
        else 0%Z in
      if Ascii.eqb z "0"%char && negb (radix =? 0)%Z then
        match take_digits radix rest with
        | ([], _) => None
        | (ds, r) => if all_ws r then Some (Fin (inject_Z (Z_of_digits radix ds))) else None
        end
      else None
  | _ => None
  end.

(** [StringToNumber], the coercion of a string to a number: the whole
    string, white space trimmed, has to be a numeric literal. *)
Definition StringToNumber (s : string) : number :=
  let t := skip_ws s in
  match t with
  | EmptyString => Fin 0
  | _ =>
      match scan_radix t with
      | Some n => n
      | None =>
          match scan_decimal t with
          | Some (n, r) => if all_ws r then n else NaN
          | None => NaN
          end
      end
  end.

(** ** Values *)

Inductive value : Type :=
| VUndefined
| VNull
| VBool (b : bool)
| VNum (n : number)
| VStr (s : string)
| VArr (elems : list value)
| VObj (props : list (string * value)).

Inductive error : Type :=
| TypeError
| SyntaxError
| NetworkError
| Thrown (v : value).

(** The outcome of evaluating an expression or calling a function. *)
Inductive completion (A : Type) : Type :=
| Normal (a : A)
| Throw (e : error).
Arguments Normal {A} a.
Arguments Throw {A} e.

Definition has_key (k : string) (props : list (string * value)) : bool :=
  existsb (fun kv => String.eqb (fst kv) k) props.

(** The properties of an object are listed with one binding per key. *)
Fixpoint lookup (k : string) (props : list (string * value)) : option value :=
  match props with
  | [] => None
  | (k', v) :: rest => if String.eqb k' k then Some v else lookup k rest
  end.

(** [v.k] for a data property [k] of a parsed JSON document.  Reading a
    property of [undefined] or [null] throws; a property that is not there
    reads as [undefined].  [k] ranges over the names used by the parse rules
    of the sources, none of which names a built-in property. *)
Definition get_prop (v : value) (k : string) : completion value :=
  match v with
  | VUndefined | VNull => Throw TypeError
  | VObj props =>
      match lookup k props with
      | Some w => Normal w
      | None => Normal VUndefined
      end
  | _ => Normal VUndefined
  end.

(** [ToBoolean], the test of [!v] and of [if (v)]. *)
Definition ToBoolean (v : value) : bool :=
  match v with
  | VUndefined | VNull => false
  | VBool b => b
  | VNum NaN => false
  | VNum (Fin q) => negb (is_zero q)
  | VNum _ => true
  | VStr s => negb (String.eqb s "")
  | VArr _ | VObj _ => true
  end.

(** ** Coercions

    [ToString] of a value throws exactly when it meets an object with an own
    [toString] property: the property of a parsed document is data, not a
    function, and the inherited [valueOf] returns the object itself.  An
    array is joined, so it throws when one of its elements does. *)
Fixpoint ToString_throws (v : value) : bool :=
  match v with
  | VObj props => has_key "toString" props
  | VArr elems => existsb ToString_throws elems
  | _ => false
  end.

(** [ToNumber] where it does not throw.  An array goes through its joined
    string: empty for no element, the string of its only element, and a
    string with a comma (not a number) for two or more. *)
Fixpoint ToNumber_val (v : value) : number :=
  match v with
  | VUndefined => NaN
  | VNull => Fin 0
  | VBool b => if b then Fin 1 else Fin 0
  | VNum n => n
  | VStr s => StringToNumber s
  | VObj _ => NaN
  | VArr [] => Fin 0
  | VArr [e] =>
      match e with
      | VUndefined | VNull => Fin 0
      | VBool _ | VObj _ => NaN
      | _ => ToNumber_val e
      end
  | VArr _ => NaN
  end.

Definition ToNumber (v : value) : completion number :=
  if ToString_throws v then Throw TypeError else Normal (ToNumber_val v).

(** [parseFloat] where it does not throw: the argument is turned into a
    string and its longest decimal prefix is read.  The string of a number
    reads back as that number; the string of an array starts with the
    string of its first element, and a comma ends every prefix. *)
Fixpoint parseFloat_val (v : value) : number :=
  match v with
  | VNum n => n
  | VStr s => parseFloat_string s
  | VArr (e :: _) => parseFloat_val e
  | _ => NaN
  end.

Definition parseFloat (v : value) : completion number :=
  if ToString_throws v then Throw TypeError else Normal (parseFloat_val v).

(** Whether [v.toLocaleString(...)] throws: on [undefined] and [null] there
    is no method to call; an object with an own [toLocaleString] or
    [toString] property has data where a function is called; an array calls
    the method of each element that is not [null]. *)
Fixpoint toLocaleString_throws (v : value) : bool :=
  match v with
  | VUndefined | VNull => true
  | VObj props => has_key "toLocaleString" props || has_key "toString" props
  | VArr elems =>
      existsb (fun e => match e with
                        | VUndefined | VNull => false
                        | _ => toLocaleString_throws e
                        end) elems
  | _ => false
  end.

(** Text shown in the page.  What [toLocaleString] prints depends on the
    locale data of the browser, so its result is kept symbolic. *)
Inductive text : Type :=
| Txt (s : string)
| TxtLocale (v : value) (locale : string) (maximumFractionDigits : option nat)
| TxtCat (a b : text).

(** ** State *)

Record element : Type := mkElement {
  className : string;
  textContent : text
}.

(** The elements of the document that carry an id. *)
Definition document := list (string * element).

Record state : Type := mkState {
  btcPrice : value;
  currentApiSource : option string;
  dom : document;
  requests : list string;
  events : list (string * value);
  warnings : list (string * error)
}.

(** The module as loaded: [let btcPrice = null; let currentApiSource = null]. *)
Definition initial (d : document) : state :=
  mkState VNull None d [] [] [].

(** ** The monad of effects *)

Definition M (A : Type) : Type := state -> completion A * state.

Definition ret {A} (a : A) : M A := fun st => (Normal a, st).

Definition bind {A B} (m : M A) (k : A -> M B) : M B :=
  fun st =>
    match m st with
    | (Normal a, st') => k a st'
    | (Throw e, st') => (Throw e, st')
    end.

Definition throw {A} (e : error) : M A := fun st => (Throw e, st).

(** [try { body } catch (error) { handler }] *)
Definition try_catch {A} (body : M A) (handler : error -> M A) : M A :=
  fun st =>
    match body st with
    | (Normal a, st') => (Normal a, st')
    | (Throw e, st') => handler e st'
    end.

Definition lift {A} (c : completion A) : M A := fun st => (c, st).

Definition modify (f : state -> state) : M unit := fun st => (Normal tt, f st).

Definition gets {A} (f : state -> A) : M A := fun st => (Normal (f st), st).

Declare Scope js_scope.
Delimit Scope js_scope with js.
Notation "x <- m ;; k" := (bind m (fun x => k))
  (at level 61, m at next level, right associativity) : js_scope.
Notation "m ;; k" := (bind m (fun _ => k))
  (at level 61, right associativity) : js_scope.
Local Open Scope js_scope.

(** ** The document *)

Fixpoint find_element (id : string) (d : document) : option element :=
  match d with
  | [] => None
  | (id', e) :: rest => if String.eqb id' id then Some e else find_element id rest
  end.

Fixpoint update_element (id : string) (f : element -> element) (d : document)
  : document :=
  match d with
  | [] => []
  | (id', e) :: rest =>
      if String.eqb id' id then (id', f e) :: rest
      else (id', e) :: update_element id f rest
  end.

(** [document.getElementById(id)]: a handle on the element (its id), or
    [null]. *)
Definition getElementById (id : string) : M (option string) :=
  gets (fun st => match find_element id (dom st) with
                  | Some _ => Some id
                  | None => None
                  end).

Definition set_dom (f : document -> document) : M unit :=
  modify (fun st => mkState (btcPrice st) (currentApiSource st) (f (dom st))
                            (requests st) (events st) (warnings st)).

(** [el.className = c] *)
Definition set_className (el : string) (c : string) : M unit :=
  set_dom (update_element el (fun e => mkElement c (textContent e))).

(** [el.textContent = t] *)
Definition set_textContent (el : string) (t : text) : M unit :=
  set_dom (update_element el (fun e => mkElement (className e) t)).

(** [if (el) ...] *)
Definition if_element (el : option string) (k : string -> M unit) : M unit :=
  match el with
  | Some h => k h
  | None => ret tt
  end.

(** [btcPrice = v] *)
Definition set_btcPrice (v : value) : M unit :=
  modify (fun st => mkState v (currentApiSource st) (dom st)
                            (requests st) (events st) (warnings st)).

(** [currentApiSource = n] *)
Definition set_currentApiSource (n : string) : M unit :=
  modify (fun st => mkState (btcPrice st) (Some n) (dom st)
                            (requests st) (events st) (warnings st)).

(** [window.dispatchEvent(new CustomEvent(type, { detail }))]: the event is
    handed to the listeners; what a listener throws does not reach the
    caller, and the listeners leave the variables of the module alone. *)
Definition dispatchEvent (type : string) (detail : value) : M unit :=
  modify (fun st => mkState (btcPrice st) (currentApiSource st) (dom st)
                            (requests st) (events st ++ [(type, detail)])
                            (warnings st)).

(** [console.warn(msg, error)] *)
Definition console_warn (msg : string) (e : error) : M unit :=
  modify (fun st => mkState (btcPrice st) (currentApiSource st) (dom st)
                            (requests st) (events st)
                            (warnings st ++ [(msg, e)])).

(** ** The network *)

Inductive payload : Type :=
| Unreadable
| Json (data : value).

Record response : Type := mkResponse {
  ok : bool;
  body : payload
}.

Inductive fetch_result : Type :=
| Rejected
| Responded (r : response).

(** The answer to the [k]-th request issued since the page was loaded,
    given its URL. *)
Definition network := nat -> string -> fetch_result.

(** [await fetch(u)]: the request is issued (and logged); a rejected promise
    is a throw at the [await]. *)
Definition fetch (net : network) (u : string) : M response :=
  fun st =>
    let st' := mkState (btcPrice st) (currentApiSource st) (dom st)
                       (requests st ++ [u]) (events st) (warnings st) in
    match net (List.length (requests st)) u with
    | Rejected => (Throw NetworkError, st')
    | Responded r => (Normal r, st')
    end.

(** [await response.json()] *)
Definition response_json (r : response) : M value :=
  match body r with
  | Unreadable => throw SyntaxError
  | Json d => ret d
  end.

(** ** The price sources *)

Record source : Type := mkSource {
  name : string;
  url : string;
  parsePrice : value -> completion value
}.

Definition cbind {A B} (c : completion A) (k : A -> completion B)
  : completion B :=
  match c with
  | Normal a => k a
  | Throw e => Throw e
  end.

(** [(data) => data.bitcoin.eur] *)
Definition parse_CoinGecko (data : value) : completion value :=
  cbind (get_prop data "bitcoin") (fun b => get_prop b "eur").

(** [(data) => data.EUR.last] *)
Definition parse_Blockchain (data : value) : completion value :=
  cbind (get_prop data "EUR") (fun e => get_prop e "last").

(** [(data) => parseFloat(data.data.priceUsd) * 0.92] *)
Definition parse_CoinCap (data : value) : completion value :=
  cbind (get_prop data "data") (fun d =>
  cbind (get_prop d "priceUsd") (fun p =>
  cbind (parseFloat p) (fun usd =>
  Normal (VNum (num_mul usd (Fin 0.92)))))).

Definition API_SOURCES : list source :=
  [ mkSource "CoinGecko"
      "https://api.coingecko.com/api/v3/simple/price?ids=bitcoin&vs_currencies=eur"
      parse_CoinGecko;
    mkSource "Blockchain.info"
      "https://blockchain.info/ticker"
      parse_Blockchain;
    mkSource "CoinCap"
      "https://api.coincap.io/v2/assets/bitcoin"
      parse_CoinCap ].

(** ** Formatting *)

(** [num.toLocaleString('es-ES', { maximumFractionDigits: 0 }) + ' €'] *)
Definition formatEur (num : value) : M text :=
  if toLocaleString_throws num then throw TypeError
  else ret (TxtCat (TxtLocale num "es-ES" (Some 0%nat)) (Txt " €")).

(** ** Fetching the price *)

(** How one turn of the [for] loop ends. *)
Inductive control : Type :=
| Continue
| Return (v : value).

Section Fetch.

Variable net : network.
Variable sources : list source.

(** The body of the loop for one source, [try { ... } catch { ... }]. *)
Definition attempt (priceDot priceDisplay apiSourceDisplay : option string)
           (api : source) : M control :=
  try_catch
    (response <- fetch net (url api) ;;
     if negb (ok response) then ret Continue else
     data <- response_json response ;;
     price <- lift (parsePrice api data) ;;
     set_btcPrice price ;;
     set_currentApiSource (name api) ;;
     if_element priceDisplay (fun el =>
       p <- gets btcPrice ;;
       t <- formatEur p ;;
       set_textContent el t) ;;
     if_element apiSourceDisplay (fun el =>
       set_textContent el (Txt ("vía " ++ name api))) ;;
     if_element priceDot (fun el => set_className el "price-dot") ;;
     p <- gets btcPrice ;;
     dispatchEvent "btcPriceUpdated" (VObj [("price", p)]) ;;
     p <- gets btcPrice ;;
     ret (Return p))
    (fun error =>
       console_warn ("API " ++ name api ++ " falló:") error ;;
       ret Continue).

(** [for (const api of apis) body]: [Some v] when a turn returned [v] from
    the function, [None] when the loop ran to its end. *)
Fixpoint for_of (body : source -> M control) (apis : list source)
  : M (option value) :=
  match apis with
  | [] => ret None
  | api :: rest =>
      c <- body api ;;
      match c with
      | Return v => ret (Some v)
      | Continue => for_of body rest
      end
  end.

Definition fetchBtcPrice : M value :=
  priceDot <- getElementById "price-dot" ;;
  priceDisplay <- getElementById "btc-price" ;;
  apiSourceDisplay <- getElementById "api-source" ;;
  if_element priceDot (fun el => set_className el "price-dot loading") ;;
  r <- for_of (attempt priceDot priceDisplay apiSourceDisplay) sources ;;
  match r with
  | Some v => ret v
  | None =>
      if_element priceDisplay (fun el =>
        set_textContent el (Txt "sin conexión")) ;;
      if_element priceDot (fun el => set_className el "price-dot error") ;;
      ret VNull
  end.

End Fetch.

(** [getBtcPrice()] *)
Definition getBtcPrice : M value := gets btcPrice.

(** ** The conversions *)

(** The literal [100000000], the satoshis of one bitcoin. *)
Definition SATS_PER_BTC : number := Fin 100000000.

(** [if (!btcPrice || eur <= 0) return 0; return eur / btcPrice;] *)
Definition eurToBtc (eur : number) : M number :=
  price <- gets btcPrice ;;
  if negb (ToBoolean price) || num_le eur (Fin 0) then ret (Fin 0) else
  p <- lift (ToNumber price) ;;
  ret (num_div eur p).

(** [return Math.round(eurToBtc(eur) * 100000000);] *)
Definition eurToSats (eur : number) : M number :=
  btc <- eurToBtc eur ;;
  ret (Math_round (num_mul btc SATS_PER_BTC)).

(** [if (!btcPrice || btc <= 0) return 0; return btc * btcPrice;] *)
Definition btcToEur (btc : number) : M number :=
  price <- gets btcPrice ;;
  if negb (ToBoolean price) || num_le btc (Fin 0) then ret (Fin 0) else
  p <- lift (ToNumber price) ;;
  ret (num_mul btc p).

(** [return btcToEur(sats / 100000000);] *)
Definition satsToEur (sats : number) : M number :=
  btcToEur (num_div sats SATS_PER_BTC).

(** ** Formatting amounts *)

(** The decimal digits of a natural number, most significant first; [fuel]
    bounds their count. *)
Fixpoint to_digits (fuel : nat) (n : Z) (acc : list Z) : list Z :=
  match fuel with
  | O => acc
  | S k =>
      if (n <? 10)%Z then n :: acc
      else to_digits k (n / 10)%Z ((n mod 10)%Z :: acc)
  end.

Definition decimal_digits (n : Z) : list Z :=
  to_digits (S (Z.to_nat (Z.log2 n))) n [].

Definition digit_char (d : Z) : ascii := ascii_of_nat (48 + Z.to_nat d).

Fixpoint string_of_digits (ds : list Z) : string :=
  match ds with
  | [] => EmptyString
  | d :: rest => String (digit_char d) (string_of_digits rest)
  end.

(** A decimal digit. *)
Definition is_digit (d : Z) : Prop := (0 <= d < 10)%Z.

(** The digits of [n / 10^f] in fixed-point notation, as [toFixed] lays
    them out: the digits of [n], padded with zeros to [f + 1] digits, with
    a point before the last [f] when [f] is not zero. *)
Definition fixed_point (f : nat) (n : Z) : string :=
  let ds := decimal_digits n in
  let ds := (repeat 0%Z (f + 1 - List.length ds) ++ ds)%list in
  let k := List.length ds in
  if (f =? 0)%nat then string_of_digits ds
  else string_of_digits (firstn (k - f) ds)
       ++ "." ++ string_of_digits (skipn (k - f) ds).

(** What a formatting function returns: text, spelled out where the
    language fixes it.  The exponent notation of a finite number from
    [10^21] on is not spelled out. *)
Inductive shown : Type :=
| Shown (t : text)
| ShownExp (q : Q)
| ShownCat (a b : shown).

Definition lit (s : string) : shown := Shown (Txt s).

(** [a + b] on strings; two spelled-out strings give a spelled-out one. *)
Definition cat (a b : shown) : shown :=
  match a, b with
  | Shown (Txt s), Shown (Txt t) => Shown (Txt (s ++ t))
  | _, _ => ShownCat a b
  end.

Definition TEN_POW_21 : Q := inject_Z (10 ^ 21).

(** [x.toFixed(f)] for [0 <= f <= 100]: the integer [n] with [n / 10^f]
    nearest to [|x|], the larger one of two, in fixed-point notation, with
    the sign of [x] in front. *)
Definition toFixed (f : nat) (x : number) : shown :=
  match x with
  | NaN => lit "NaN"
  | PInf => lit "Infinity"
  | NInf => lit "-Infinity"
  | Fin q =>
      let neg := negb (Qle_bool 0 q) in
      let a := if neg then - q else q in
      let sign := if neg then "-" else "" in
      if Qle_bool TEN_POW_21 a then cat (lit sign) (ShownExp a)
      else lit (sign ++ fixed_point f
                  (Qfloor (a * inject_Z (10 ^ Z.of_nat f) + (1 # 2))))
  end.

(** [return num.toFixed(8) + ' BTC';] *)
Definition formatBtc (num : number) : shown :=
  cat (toFixed 8 num) (lit " BTC").

(** ** Sharing *)

Definition SITE_URL : string := "https://bitcoincalculadora.com".

(** The characters that [encodeURIComponent] leaves as they are: letters,
    digits and [- _ . ! ~ * ' ( )]. *)
Definition is_unreserved (c : ascii) : bool :=
  let n := nat_of_ascii c in
  ((65 <=? n) && (n <=? 90) || (97 <=? n) && (n <=? 122)
   || (48 <=? n) && (n <=? 57)
   || (n =? 45) || (n =? 95) || (n =? 46) || (n =? 33) || (n =? 126)
   || (n =? 42) || (n =? 39) || (n =? 40) || (n =? 41))%nat.

Definition hex_char (n : nat) : ascii :=
  if (n <? 10)%nat then ascii_of_nat (48 + n) else ascii_of_nat (55 + n).

Definition percent_encode (c : ascii) : string :=
  let n := nat_of_ascii c in
  String "%" (String (hex_char (n / 16)) (String (hex_char (n mod 16)) "")).

(** [encodeURIComponent(s)].  A string holds the UTF-8 bytes of its text,
    and the function escapes each byte of every character that is not
    unreserved; the bytes of a character beyond ASCII are all escaped.  (It
    throws on a lone surrogate only, which has no UTF-8 form.) *)
Fixpoint encodeURIComponent (s : string) : string :=
  match s with
  | EmptyString => EmptyString
  | String c rest =>
      (if is_unreserved c then String c "" else percent_encode c)
      ++ encodeURIComponent rest
  end.

(** The call [window.open(url, target, features)]. *)
Record window_open : Type := mkOpen {
  open_url : string;
  open_target : string;
  open_features : string
}.

(** The parameter [url = SITE_URL]: an argument left out is the site. *)
Definition url_or_site (url : option string) : string :=
  match url with
  | Some u => u
  | None => SITE_URL
  end.

(** [shareOnTwitter(text, url = SITE_URL)]: the window it opens. *)
Definition shareOnTwitter (text : string) (url : option string) : window_open :=
  let tweetUrl :=
    "https://twitter.com/intent/tweet?text=" ++ encodeURIComponent text
    ++ "&url=" ++ encodeURIComponent (url_or_site url) in
  mkOpen tweetUrl "_blank" "width=550,height=420".

(** How often a character occurs in a string. *)
Fixpoint count_char (c : ascii) (s : string) : nat :=
  match s with
  | EmptyString => O
  | String d rest => (if Ascii.eqb d c then 1 else 0) + count_char c rest
  end.

Definition hex_value (c : ascii) : nat :=
  let n := nat_of_ascii c in
  if (n <? 58)%nat then n - 48 else n - 55.

(** The inverse of the escaping, used to tell escaped strings apart. *)
Fixpoint unescape (s : string) : string :=
  match s with
  | EmptyString => EmptyString
  | String c rest =>
      if Ascii.eqb c "%" then
        match rest with
        | String h (String l rest') =>
            String (ascii_of_nat (hex_value h * 16 + hex_value l))
                   (unescape rest')
        | _ => s
        end
      else String c (unescape rest)
  end.

(** ** Vocabulary of the properties *)

(** What a source answers to a request: it fails outright (the request is
    rejected, the response is not ok, its body is not JSON, or the parse rule
    throws), or its parse rule returns a value. *)
Inductive answer : Type :=
| Fails
| Yields (v : value).

Definition answer_of (net : network) (k : nat) (api : source) : answer :=
  match net k (url api) with
  | Rejected => Fails
  | Responded r =>
      if ok r then
        match body r with
        | Unreadable => Fails
        | Json d =>
            match parsePrice api d with
            | Normal v => Yields v
            | Throw _ => Fails
            end
        end
      else Fails
  end.

(** Every source of [apis] fails outright, the first one being asked by
    request number [k]. *)
Fixpoint all_fail (net : network) (k : nat) (apis : list source) : bool :=
  match apis with
  | [] => true
  | api :: rest =>
      match answer_of net k api with
      | Fails => all_fail net (S k) rest
      | Yields _ => false
      end
  end.

(** A price as the data model has it: a finite, non-negative number. *)
Definition valid_price (v : value) : bool :=
  match v with
  | VNum (Fin q) => Qle_bool 0 q
  | _ => false
  end.

(** The first source of [apis] whose request succeeds and whose parse rule
    returns a valid price, were each source asked in turn from request
    number [k] on: its position, the source and the price. *)
Fixpoint first_valid (net : network) (k : nat) (apis : list source)
  : option (nat * source * value) :=
  match apis with
  | [] => None
  | api :: rest =>
      match answer_of net k api with
      | Yields v =>
          if valid_price v then Some (O, api, v)
          else match first_valid net (S k) rest with
               | Some (i, a, w) => Some (S i, a, w)
               | None => None
               end
      | Fails =>
          match first_valid net (S k) rest with
          | Some (i, a, w) => Some (S i, a, w)
          | None => None
          end
      end
  end.

(** Two states that differ in the page and the console at most. *)
Definition same_record (st1 st2 : state) : Prop :=
  btcPrice st1 = btcPrice st2 /\
  currentApiSource st1 = currentApiSource st2 /\
  requests st1 = requests st2 /\
  events st1 = events st2.

(** No source of [apis], asked in turn from request number [k] on, yields a
    value whose [toLocaleString] throws. *)
Fixpoint all_shown (net : network) (k : nat) (apis : list source) : bool :=
  match apis with
  | [] => true
  | api :: rest =>
      match answer_of net k api with
      | Yields v => negb (toLocaleString_throws v)
      | Fails => true
      end && all_shown net (S k) rest
  end.

Definition conversions : list (number -> M number) :=
  [eurToBtc; eurToSats; btcToEur; satsToEur].

(** The states the page can be in: the module as loaded, then any sequence
    of calls of [fetchBtcPrice], of [getBtcPrice] and of the converters. *)
Inductive reachable (net : network) (sources : list source) (d : document)
  : state -> Prop :=
| reach_initial : reachable net sources d (initial d)
| reach_fetch st :
    reachable net sources d st ->
    reachable net sources d (snd (fetchBtcPrice net sources st))
| reach_get st :
    reachable net sources d st ->
    reachable net sources d (snd (getBtcPrice st))
| reach_convert st f x :
    In f conversions ->
    reachable net sources d st ->
    reachable net sources d (snd (f x st)).

(** The recorded price and name are what some source of the list yielded to
    some request made so far. *)
Definition recorded_from_source
           (net : network) (sources : list source) (st : state) : Prop :=
  exists k api v,
    In api sources /\
    nth_error (requests st) k = Some (url api) /\
    answer_of net k api = Yields v /\
    btcPrice st = v /\
    currentApiSource st = Some (name api).

(** The event dispatched on success. *)
Definition price_event (v : value) : string * value :=
  ("btcPriceUpdated", VObj [("price", v)]).

(** A whole number of subunits, not negative. *)
Definition nonneg_integer (n : number) : Prop :=
  match n with
  | Fin q => exists z : Z, (0 <= z)%Z /\ q == inject_Z z
  | _ => False
  end.

(** The claim of C1 as the specification words it: whichever source is the
    first to answer a valid price is the one recorded. *)
Definition first_valid_is_recorded
           (net : network) (sources : list source) (st : state) : Prop :=
  forall i api v,
    first_valid net (List.length (requests st)) sources = Some (i, api, v) ->
    let (r, st') := fetchBtcPrice net sources st in
    r = Normal v /\
    btcPrice st' = v /\
    currentApiSource st' = Some (name api) /\
    requests st' = (requests st ++ map url (firstn (S i) sources))%list.

(** The claim of C2 as the specification words it: when no source gives a
    price (each one is unreachable, answers not ok, or no valid price parses
    from its answer), the call returns [null] and the recorded price and
    name are the ones from before the call. *)
Definition failed_sources_keep_price
           (net : network) (sources : list source) (st : state) : Prop :=
  first_valid net (List.length (requests st)) sources = None ->
  let (r, st') := fetchBtcPrice net sources st in
  r = Normal VNull /\
  btcPrice st' = btcPrice st /\
  currentApiSource st' = currentApiSource st.

(** The claim of C3 as the specification words it: a call records a price
    and signals success only for a valid numeric price. *)
Definition records_only_valid_prices
           (net : network) (sources : list source) (st : state) : Prop :=
  let st' := snd (fetchBtcPrice net sources st) in
  (btcPrice st' = btcPrice st \/ valid_price (btcPrice st') = true) /\
  (events st' = events st \/ valid_price (btcPrice st') = true).

(** The claim of C10 as stated: a non-null result is the recorded price,
    and a [null] result means the recorded price and name are the ones from
    before the call. *)
Definition result_agrees_with_state
           (net : network) (sources : list source) (st : state) : Prop :=
  let (r, st') := fetchBtcPrice net sources st in
  match r with
  | Normal VNull =>
      btcPrice st' = btcPrice st /\ currentApiSource st' = currentApiSource st
  | Normal v => btcPrice st' = v
  | Throw _ => True
  end.

(** The claim of C8 as stated, for one state and one amount. *)
Definition returns_nonneg_integer (st : state) (x : number) : Prop :=
  exists n, eurToSats x st = (Normal n, st) /\ nonneg_integer n.

(** A price that is not negative, or none. *)
Definition nonneg_price_or_unset (v : value) : Prop :=
  v = VNull \/ v = VNum PInf \/ exists p, v = VNum (Fin p) /\ 0 <= p.

(** The price in dollars that the third source reads from a response,
    [parseFloat(data.data.priceUsd)]. *)
Definition priceUsd_of (data : value) : completion number :=
  cbind (get_prop data "data") (fun d =>
  cbind (get_prop d "priceUsd") parseFloat).

(** *** The page after a fetch *)

(** The handle that [getElementById] gives for [id] on the page [d]. *)
Definition handle (id : string) (d : document) : option string :=
  match find_element id d with
  | Some _ => Some id
  | None => None
  end.

Definition on_element (el : option string) (f : element -> element)
           (d : document) : document :=
  match el with
  | Some h => update_element h f d
  | None => d
  end.

(** The text that [formatEur] makes of a value it can show. *)
Definition eur_text (v : value) : text :=
  TxtCat (TxtLocale v "es-ES" (Some 0%nat)) (Txt " €").

(** The page once the fetch has started: the dot is loading. *)
Definition loading_page (dot : option string) (d : document) : document :=
  on_element dot (fun e => mkElement "price-dot loading" (textContent e)) d.

(** The page once a source called [nm] has given [v] and [v] was shown. *)
Definition shown_page (dot disp label : option string) (nm : string)
           (v : value) (d : document) : document :=
  on_element dot (fun e => mkElement "price-dot" (textContent e))
    (on_element label (fun e => mkElement (className e) (Txt ("vía " ++ nm)))
       (on_element disp (fun e => mkElement (className e) (eur_text v)) d)).

(** The page once the loop has run out of sources. *)
Definition failed_page (dot disp : option string) (d : document) : document :=
  on_element dot (fun e => mkElement "price-dot error" (textContent e))
    (on_element disp (fun e => mkElement (className e) (Txt "sin conexión")) d).

(** *** Parse rules *)

Definition nullish (v : value) : bool :=
  match v with
  | VUndefined | VNull => true
  | _ => false
  end.

(** A parse rule that returns numbers only. *)
Definition numeric_rule (api : source) : Prop :=
  forall data v, parsePrice api data = Normal v -> exists n, v = VNum n.

Definition CoinCap : source :=
  mkSource "CoinCap" "https://api.coincap.io/v2/assets/bitcoin" parse_CoinCap.

(** *** The console *)

(** What a source that fails outright throws inside the [try] block, if
    anything: a response that is not ok is left by [continue], with no
    throw. *)
Definition thrown_by (net : network) (k : nat) (api : source) : option error :=
  match net k (url api) with
  | Rejected => Some NetworkError
  | Responded r =>
      if ok r then
        match body r with
        | Unreadable => Some SyntaxError
        | Json d =>
            match parsePrice api d with
            | Throw e => Some e
            | Normal _ => None
            end
        end
      else None
  end.

(** One warning for each source of [apis] that throws, in order, the first
    source being asked by request number [k]. *)
Fixpoint warnings_of (net : network) (k : nat) (apis : list source)
  : list (string * error) :=
  match apis with
  | [] => []
  | api :: rest =>
      match thrown_by net k api with
      | Some e => [("API " ++ name api ++ " falló:", e)]
      | None => []
      end ++ warnings_of net (S k) rest
  end.

(** ** Sample runs *)

Definition json_CoinGecko (eur : value) : value :=
  VObj [("bitcoin", VObj [("eur", eur)])].

Definition json_Blockchain (last : value) : value :=
  VObj [("EUR", VObj [("last", last)])].

Definition json_CoinCap (priceUsd : value) : value :=
  VObj [("data", VObj [("priceUsd", priceUsd)])].

Definition replies (l : list fetch_result) : network :=
  fun k _ => nth k l Rejected.

Definition ok_json (d : value) : fetch_result :=
  Responded (mkResponse true (Json d)).

(** A page with the three presentation elements, and one without. *)
Definition page_with_ui : document :=
  [ ("price-dot", mkElement "price-dot" (Txt ""));
    ("btc-price", mkElement "" (Txt "--"));
    ("api-source", mkElement "" (Txt "")) ].

Definition page_without_ui : document := [].

(** The first source answers a document without the price in it, the second
    one answers 50000. *)
Definition net_missing_then_price : network :=
  replies [ ok_json (VObj [("bitcoin", VObj [])]);
            ok_json (json_Blockchain (VNum (Fin 50000))) ].

(** The first source answers a price that is text. *)
Definition net_text_price : network :=
  replies [ ok_json (json_CoinGecko (VStr "n/a")) ].

(** First run: the first source is unreachable, the second answers 50000.
    Second run: the first source answers [null] for the price. *)
Definition net_price_then_null : network :=
  replies [ Rejected;
            ok_json (json_Blockchain (VNum (Fin 50000)));
            ok_json (json_CoinGecko VNull) ].

(** First run: the first source answers 50000.  Second run: the first
    source answers a document without the price in it, the others are
    unreachable. *)
Definition net_price_then_missing : network :=
  replies [ ok_json (json_CoinGecko (VNum (Fin 50000)));
            ok_json (VObj [("bitcoin", VObj [])]) ].

(** Every request is rejected. *)
Definition net_down : network := fun _ _ => Rejected.

(** The state after one earlier successful fetch. *)
Definition state_with_price (p : Q) : state :=
  mkState (VNum (Fin p)) (Some "CoinGecko") page_with_ui
          ["https://api.coingecko.com/api/v3/simple/price?ids=bitcoin&vs_currencies=eur"]
          [price_event (VNum (Fin p))] [].

(** ** Tactics *)

Ltac run_js :=
  unfold attempt, try_catch, bind, fetch, response_json, lift, throw, ret,
    set_btcPrice, set_currentApiSource, if_element, formatEur,
    set_textContent, set_className, set_dom, dispatchEvent, console_warn,
    modify, gets; simpl.

Ltac run_page :=
  unfold fetchBtcPrice, bind, getElementById, gets, if_element,
    set_textContent, set_className, set_dom, modify, ret; simpl.

Ltac run_conv :=
  unfold eurToSats, satsToEur, eurToBtc, btcToEur, bind, gets, lift, ret;
  simpl.

(** * Properties *)

(** ** Sample evaluations *)

Example parseFloat_decimal :
  parseFloat_string "50000.5" = Fin 50000.5 /\
  parseFloat_string "  -1.5e2 EUR" = Fin (-150) /\
  parseFloat_string "1e" = Fin 1 /\
  parseFloat_string "0x10" = Fin 0 /\
  parseFloat_string "-Infinity" = NInf /\
  parseFloat_string "." = NaN /\
  parseFloat_string "" = NaN.
Proof. vm_compute. repeat split. Qed.

Example StringToNumber_literals :
  StringToNumber "" = Fin 0 /\
  StringToNumber " 12 " = Fin 12 /\
  StringToNumber "12px" = NaN /\
  StringToNumber "0x1F" = Fin 31 /\
  StringToNumber "1e3" = Fin 1000 /\
  StringToNumber "Infinity" = PInf.
Proof. vm_compute. repeat split. Qed.

(** White space beyond ASCII: a no-break space (U+00A0), a byte order mark
    (U+FEFF) and a line separator (U+2028), in their UTF-8 bytes. *)
Example numeric_strings_white_space :
  parseFloat_string
    (String (ascii_of_nat 194) (String (ascii_of_nat 160) "50000"))
  = Fin 50000 /\
  parseFloat_string
    (String (ascii_of_nat 239) (String (ascii_of_nat 187)
       (String (ascii_of_nat 191) " 7")))
  = Fin 7 /\
  StringToNumber
    ("12" ++ String (ascii_of_nat 226) (String (ascii_of_nat 128)
               (String (ascii_of_nat 168) "")))
  = Fin 12 /\
  exists eur,
    parse_CoinCap
      (json_CoinCap
         (VStr (String (ascii_of_nat 194) (String (ascii_of_nat 160) "50000"))))
    = Normal (VNum (Fin eur)) /\
    eur == 46000.
Proof.
  repeat split; try (vm_compute; reflexivity).
  eexists. split; [vm_compute; reflexivity | reflexivity].
Qed.

Example Math_round_halves :
  Math_round (Fin 2.5) = Fin 3 /\
  Math_round (Fin (-2.5)) = Fin (-2) /\
  Math_round (Fin 0.4) = Fin 0 /\
  Math_round NaN = NaN.
Proof. vm_compute. repeat split. Qed.

Example ToNumber_coercions :
  ToNumber (VStr "50000") = Normal (Fin 50000) /\
  ToNumber (VBool true) = Normal (Fin 1) /\
  ToNumber (VArr []) = Normal (Fin 0) /\
  ToNumber (VArr [VNum (Fin 7)]) = Normal (Fin 7) /\
  ToNumber (VArr [VNum (Fin 7); VNum (Fin 8)]) = Normal NaN /\
  ToNumber (VObj []) = Normal NaN /\
  ToNumber (VObj [("toString", VNum (Fin 1))]) = Throw TypeError.
Proof. vm_compute. repeat split. Qed.

Example parse_rules :
  parse_CoinGecko (json_CoinGecko (VNum (Fin 50000)))
    = Normal (VNum (Fin 50000)) /\
  parse_CoinGecko (VObj [("bitcoin", VObj [])]) = Normal VUndefined /\
  parse_CoinGecko (VObj []) = Throw TypeError /\
  parse_Blockchain (json_Blockchain (VNum (Fin 50000)))
    = Normal (VNum (Fin 50000)) /\
  parse_Blockchain VNull = Throw TypeError /\
  parse_CoinCap (VObj [("data", VObj [])]) = Normal (VNum NaN) /\
  parse_CoinCap (VObj []) = Throw TypeError.
Proof. vm_compute. repeat split. Qed.

Example formatEur_throws :
  fst (formatEur VUndefined (initial [])) = Throw TypeError /\
  fst (formatEur VNull (initial [])) = Throw TypeError /\
  fst (formatEur (VNum NaN) (initial []))
    = Normal (TxtCat (TxtLocale (VNum NaN) "es-ES" (Some 0%nat)) (Txt " €")).
Proof. vm_compute. repeat split. Qed.

(** ** One turn of the loop *)

Section Turn.

Variable net : network.
Variables priceDot priceDisplay apiSourceDisplay : option string.

Local Abbreviation turn := (attempt net priceDot priceDisplay apiSourceDisplay).

(** A turn never throws: what goes wrong inside is caught. *)
Lemma attempt_total api st :
  exists c st', turn api st = (Normal c, st').
Proof.
  run_js.
  destruct (net _ _) as [|[[] [|d]]]; simpl; eauto.
  destruct (parsePrice api d) as [v|e]; simpl; eauto.
  destruct priceDisplay, apiSourceDisplay, priceDot; simpl;
    try destruct (toLocaleString_throws v); simpl; eauto.
Qed.

(** A source that fails outright is skipped: one request more, and the
    price, the source name, the page and the events are as before. *)
Lemma attempt_fails api st :
  answer_of net (List.length (requests st)) api = Fails ->
  exists st',
    turn api st = (Normal Continue, st') /\
    btcPrice st' = btcPrice st /\
    currentApiSource st' = currentApiSource st /\
    dom st' = dom st /\
    requests st' = (requests st ++ [url api])%list /\
    events st' = events st.
Proof.
  unfold answer_of. run_js.
  destruct (net _ _) as [|[[] [|d]]]; simpl; eauto 10.
  destruct (parsePrice api d) as [v|e]; simpl; [discriminate|eauto 10].
Qed.

(** A source whose parse rule returns [v] is recorded before anything is
    shown; the turn returns [v] unless showing it throws. *)
Lemma attempt_yields api st v :
  answer_of net (List.length (requests st)) api = Yields v ->
  exists c st',
    turn api st = (Normal c, st') /\
    btcPrice st' = v /\
    currentApiSource st' = Some (name api) /\
    requests st' = (requests st ++ [url api])%list /\
    ((c = Return v /\ events st' = (events st ++ [price_event v])%list /\
      (priceDisplay = None \/ toLocaleString_throws v = false)) \/
     (c = Continue /\ events st' = events st /\
      priceDisplay <> None /\ toLocaleString_throws v = true)).
Proof.
  unfold answer_of. run_js.
  destruct (net _ _) as [|[[] [|d]]]; simpl; try discriminate.
  destruct (parsePrice api d) as [w|e]; simpl; [|discriminate].
  intros [= ->].
  destruct priceDisplay as [el|]; simpl.
  - destruct (toLocaleString_throws v) eqn:T; simpl.
    + do 2 eexists. repeat split. right. repeat split; congruence.
    + destruct apiSourceDisplay, priceDot; simpl;
        do 2 eexists; repeat split; left; repeat split; auto.
  - destruct apiSourceDisplay, priceDot; simpl;
      do 2 eexists; repeat split; left; repeat split; auto.
Qed.

End Turn.

(** ** The loop over the sources *)

Section Loop.

Variable net : network.
Variables priceDot priceDisplay apiSourceDisplay : option string.

Local Abbreviation loop :=
  (for_of (attempt net priceDot priceDisplay apiSourceDisplay)).

Lemma for_of_total apis : forall st,
  exists r st', loop apis st = (Normal r, st').
Proof.
    induction apis as [|api rest IH]; intros st; simpl.
  - unfold ret. eauto.
  - unfold bind.
    destruct (attempt_total net priceDot priceDisplay apiSourceDisplay api st)
      as (c & st1 & E).
    rewrite E. destruct c; [apply IH | unfold ret; eauto].
Qed.

(** When every source fails outright the loop runs to its end, asks each
    source once, and leaves the recorded price and name alone. *)
Lemma for_of_all_fail apis : forall st,
  all_fail net (List.length (requests st)) apis = true ->
  exists st',
    loop apis st = (Normal None, st') /\
    btcPrice st' = btcPrice st /\
    currentApiSource st' = currentApiSource st /\
    dom st' = dom st /\
    requests st' = (requests st ++ map url apis)%list /\
    events st' = events st.
Proof.
    induction apis as [|api rest IH]; intros st; simpl.
  - intros _. exists st. rewrite app_nil_r. unfold ret. auto 10.
  - destruct (answer_of net _ api) eqn:A; [|discriminate].
    intros F. unfold bind.
    destruct (attempt_fails net priceDot priceDisplay apiSourceDisplay _ _ A)
      as (st1 & E & Hp & Hs & Hd & Hr & He).
    rewrite E.
    destruct (IH st1) as (st2 & E2 & Hp2 & Hs2 & Hd2 & Hr2 & He2).
    { rewrite Hr, length_app, Nat.add_1_r. exact F. }
    exists st2. rewrite E2, Hp2, Hs2, Hd2, Hr2, He2, Hr, <- app_assoc.
    auto 10.
Qed.

(** The sources before position [i] fail outright and source [i] yields a
    value that can be shown: the loop returns at [i]. *)
Lemma for_of_first i : forall apis st api v,
  all_fail net (List.length (requests st)) (firstn i apis) = true ->
  nth_error apis i = Some api ->
  answer_of net (List.length (requests st) + i) api = Yields v ->
  priceDisplay = None \/ toLocaleString_throws v = false ->
  exists st',
    loop apis st = (Normal (Some v), st') /\
    btcPrice st' = v /\
    currentApiSource st' = Some (name api) /\
    requests st' = (requests st ++ map url (firstn (S i) apis))%list /\
    events st' = (events st ++ [price_event v])%list.
Proof.
    induction i as [|i IH]; intros [|a rest] st api v F N A D;
    try discriminate; simpl in *.
  - injection N as ->. rewrite Nat.add_0_r in A. unfold bind.
    destruct (attempt_yields net priceDot priceDisplay apiSourceDisplay _ _ _ A)
      as (c & st1 & E & Hp & Hs & Hr & [(-> & He & _) | (_ & _ & Hd & Ht)]).
    + rewrite E. unfold ret. exists st1. auto.
    + destruct D; congruence.
  - destruct (answer_of net _ a) eqn:Aa; [|discriminate]. unfold bind.
    destruct (attempt_fails net priceDot priceDisplay apiSourceDisplay _ _ Aa)
      as (st1 & E & Hp & Hs & Hd & Hr & He).
    rewrite E.
    assert (L : List.length (requests st1) = S (List.length (requests st)))
      by (rewrite Hr, length_app, Nat.add_1_r; reflexivity).
    destruct (IH rest st1 api v) as (st2 & E2 & Hp2 & Hs2 & Hr2 & He2); auto.
    { rewrite L. exact F. }
    { rewrite L. rewrite <- Nat.add_succ_comm in A. exact A. }
    exists st2. rewrite E2, Hr2, He2, Hr, He, <- app_assoc. auto.
Qed.

(** When the loop returns [v], the last source asked yielded [v], and the
    recorded price and name are [v] and the name of that source. *)
Lemma for_of_returned apis : forall st v st',
  loop apis st = (Normal (Some v), st') ->
  btcPrice st' = v /\
  exists i api,
    nth_error apis i = Some api /\
    answer_of net (List.length (requests st) + i) api = Yields v /\
    currentApiSource st' = Some (name api) /\
    requests st' = (requests st ++ map url (firstn (S i) apis))%list /\
    events st' = (events st ++ [price_event v])%list.
Proof.
    induction apis as [|a rest IH]; intros st v st'; simpl.
  - unfold ret. discriminate.
  - unfold bind.
    assert (Step : forall st1,
      requests st1 = (requests st ++ [url a])%list ->
      events st1 = events st ->
      for_of (attempt net priceDot priceDisplay apiSourceDisplay) rest st1
        = (Normal (Some v), st') ->
      btcPrice st' = v /\
      exists i api,
        nth_error (a :: rest) i = Some api /\
        answer_of net (List.length (requests st) + i) api = Yields v /\
        currentApiSource st' = Some (name api) /\
        requests st' = (requests st ++ map url (firstn (S i) (a :: rest)))%list /\
        events st' = (events st ++ [price_event v])%list).
    { intros st1 Hr He R.
      destruct (IH _ _ _ R) as (Hp & i & api & N & A & Hs & Hr' & He').
      split; [exact Hp|]. exists (S i), api.
      rewrite Hr, length_app, Nat.add_1_r in A. simpl in A.
      rewrite Nat.add_succ_r.
      rewrite Hr', He', Hr, He, <- app_assoc. simpl. auto. }
    destruct (answer_of net (List.length (requests st)) a) eqn:A.
    + destruct (attempt_fails net priceDot priceDisplay apiSourceDisplay _ _ A)
        as (st1 & E & Hp & Hs & Hd & Hr & He).
      rewrite E. apply Step; assumption.
    + destruct (attempt_yields net priceDot priceDisplay apiSourceDisplay _ _ _ A)
        as (c & st1 & E & Hp & Hs & Hr & [(-> & He & _) | (-> & He & _)]);
        rewrite E.
      * unfold ret. intros [= <- <-]. split; [exact Hp|].
        exists 0%nat, a. rewrite Nat.add_0_r. simpl. auto.
      * apply Step; assumption.
Qed.

(** What the loop leaves recorded: nothing new when no source asked
    yielded a value, else the value and the name of the last source asked
    whose parse rule returned.  The event is dispatched exactly when the
    loop returns a value. *)
Lemma for_of_recorded apis : forall st r st',
  loop apis st = (Normal r, st') ->
  exists n,
    requests st' = (requests st ++ map url (firstn n apis))%list /\
    ((btcPrice st' = btcPrice st /\
      currentApiSource st' = currentApiSource st /\
      all_fail net (List.length (requests st)) (firstn n apis) = true /\
      r = None /\ events st' = events st) \/
     (exists j api v,
        nth_error (firstn n apis) j = Some api /\
        answer_of net (List.length (requests st) + j) api = Yields v /\
        btcPrice st' = v /\
        currentApiSource st' = Some (name api) /\
        all_fail net (List.length (requests st) + S j)
                 (skipn (S j) (firstn n apis)) = true /\
        ((r = Some v /\ events st' = (events st ++ [price_event v])%list) \/
         (r = None /\ events st' = events st)))).
Proof.
induction apis as [|a rest IH]; intros st r st'; simpl.
- unfold ret. intros [= <- <-]. exists 0%nat. simpl.
  rewrite app_nil_r. auto 10.
- unfold bind.
  destruct (answer_of net (List.length (requests st)) a) eqn:A.
  + destruct (attempt_fails net priceDot priceDisplay apiSourceDisplay _ _ A)
      as (st1 & E & Hp & Hs & Hd & Hr & He).
    rewrite E. intros R.
    assert (L : List.length (requests st1) = S (List.length (requests st)))
      by (rewrite Hr, length_app, Nat.add_1_r; reflexivity).
    destruct (IH _ _ _ R)
      as (n & Hr' & [(P & S' & F & Rn & Ev)
                    | (j & api & v & N & Y & P & S' & F & Ev)]).
    * exists (S n). simpl. rewrite A, Hr', Hr, <- app_assoc.
      split; [reflexivity|]. left. rewrite L in F.
      repeat split; congruence.
    * exists (S n). simpl. rewrite Hr', Hr, <- app_assoc.
      split; [reflexivity|]. right. exists (S j), api, v.
      rewrite L in Y, F. rewrite He in Ev.
      replace (List.length (requests st) + S j)%nat
        with (S (List.length (requests st)) + j)%nat by lia.
      replace (List.length (requests st) + S (S j))%nat
        with (S (List.length (requests st)) + S j)%nat by lia.
      repeat split; assumption.
  + destruct (attempt_yields net priceDot priceDisplay apiSourceDisplay _ _ _ A)
      as (c & st1 & E & Hp & Hs & Hr & [(-> & He & _) | (-> & He & _)]);
      rewrite E.
    * unfold ret. intros [= <- <-]. exists 1%nat. simpl.
      split; [exact Hr|]. right. exists 0%nat, a, v.
      rewrite Nat.add_0_r. simpl. auto 10.
    * intros R.
      assert (L : List.length (requests st1) = S (List.length (requests st)))
        by (rewrite Hr, length_app, Nat.add_1_r; reflexivity).
      destruct (IH _ _ _ R)
        as (n & Hr' & [(P & S' & F & Rn & Ev)
                      | (j & api & w & N & Y & P & S' & F & Ev)]).
      -- exists (S n). simpl. rewrite Hr', Hr, <- app_assoc.
         split; [reflexivity|]. right. exists 0%nat, a, v.
         rewrite L in F. rewrite Nat.add_0_r, Nat.add_1_r. simpl.
         repeat split; try congruence. right. split; congruence.
      -- exists (S n). simpl. rewrite Hr', Hr, <- app_assoc.
         split; [reflexivity|]. right. exists (S j), api, w.
         rewrite L in Y, F. rewrite He in Ev.
         replace (List.length (requests st) + S j)%nat
           with (S (List.length (requests st)) + j)%nat by lia.
         replace (List.length (requests st) + S (S j))%nat
           with (S (List.length (requests st)) + S j)%nat by lia.
         repeat split; assumption.
Qed.

End Loop.

(** ** The whole fetch *)

(** [fetchBtcPrice] is the loop between two updates of the page: the
    updates touch neither the recorded price and name nor the logs of
    requests and events. *)
Lemma fetchBtcPrice_run net sources st :
  exists pd disp asd st1,
    btcPrice st1 = btcPrice st /\
    currentApiSource st1 = currentApiSource st /\
    requests st1 = requests st /\
    events st1 = events st /\
    forall r st2,
      for_of (attempt net pd disp asd) sources st1 = (Normal r, st2) ->
      exists st',
        fetchBtcPrice net sources st
          = (Normal (match r with Some v => v | None => VNull end), st') /\
        btcPrice st' = btcPrice st2 /\
        currentApiSource st' = currentApiSource st2 /\
        requests st' = requests st2 /\
        events st' = events st2.
Proof.
  run_page.
  destruct (find_element "price-dot" (dom st)),
           (find_element "btc-price" (dom st)),
           (find_element "api-source" (dom st)); simpl;
    match goal with
    | |- context [for_of (attempt net ?pd ?disp ?asd) sources ?s] =>
        exists pd, disp, asd, s
    end;
    (repeat split; try reflexivity);
    intros r st2 E; rewrite E; destruct r; simpl; eauto 10.
Qed.

Lemma find_update_same id f d :
  find_element id (update_element id f d) = option_map f (find_element id d).
Proof.
  induction d as [|[id' e] rest IH]; simpl; [reflexivity|].
  destruct (String.eqb id' id) eqn:E; simpl; rewrite E; auto.
Qed.

Lemma find_update_other id id' f d :
  id <> id' ->
  find_element id (update_element id' f d) = find_element id d.
Proof.
  intros D. induction d as [|[i e] rest IH]; simpl; [reflexivity|].
  destruct (String.eqb_spec i id'), (String.eqb_spec i id); subst; simpl;
    try congruence.
  - destruct (String.eqb_spec id' id); congruence.
  - rewrite String.eqb_refl. reflexivity.
  - destruct (String.eqb_spec i id); congruence.
Qed.

Lemma valid_price_shown v :
  valid_price v = true -> toLocaleString_throws v = false.
Proof. destruct v as [| | |[]| | |]; simpl; congruence. Qed.

(** When every source fails outright the fetch returns [null] and records
    nothing. *)
Lemma fetchBtcPrice_skips_failures net sources st :
  all_fail net (List.length (requests st)) sources = true ->
  exists st',
    fetchBtcPrice net sources st = (Normal VNull, st') /\
    btcPrice st' = btcPrice st /\
    currentApiSource st' = currentApiSource st /\
    requests st' = (requests st ++ map url sources)%list /\
    events st' = events st.
Proof.
  intros F.
  destruct (fetchBtcPrice_run net sources st)
    as (pd & disp & asd & st1 & Hp & Hs & Hr & He & K).
  destruct (for_of_all_fail net pd disp asd sources st1)
    as (st2 & E & Hp2 & Hs2 & _ & Hr2 & He2).
  { rewrite Hr. exact F. }
  destruct (K _ _ E) as (st' & R & Hp' & Hs' & Hr' & He').
  exists st'. rewrite R, Hp', Hs', Hr', He', Hp2, Hs2, Hr2, He2, Hr.
  auto 10.
Qed.

(** C1, as stated, fails: with no price display attached, a first source
    whose document lacks the price is recorded with the price [undefined],
    and the second source, which has 50000, is never asked. *)
Lemma first_valid_is_recorded_fails :
  ~ first_valid_is_recorded net_missing_then_price API_SOURCES
      (initial page_without_ui).
Proof.
  intros H.
  specialize (H 1%nat (mkSource "Blockchain.info" "https://blockchain.info/ticker"
                                parse_Blockchain)
                (VNum (Fin 50000)) eq_refl).
  vm_compute in H. destruct H as [H _]. discriminate H.
Qed.

(** C1, amended: when the sources before position [i] fail outright and
    source [i] answers a valid price, [fetchBtcPrice] returns that price,
    records it with the name of source [i], signals it, and has asked the
    sources up to [i] once each and none after [i]. *)
Theorem fetchBtcPrice_stops_at_first_valid net sources st i api v :
  all_fail net (List.length (requests st)) (firstn i sources) = true ->
  nth_error sources i = Some api ->
  answer_of net (List.length (requests st) + i) api = Yields v ->
  valid_price v = true ->
  exists st',
    fetchBtcPrice net sources st = (Normal v, st') /\
    btcPrice st' = v /\
    currentApiSource st' = Some (name api) /\
    requests st' = (requests st ++ map url (firstn (S i) sources))%list /\
    events st' = (events st ++ [price_event v])%list.
Proof.
  intros F N A V.
  destruct (fetchBtcPrice_run net sources st)
    as (pd & disp & asd & st1 & Hp & Hs & Hr & He & K).
  destruct (for_of_first net pd disp asd i sources st1 api v)
    as (st2 & E & Hp2 & Hs2 & Hr2 & He2);
    try assumption; try (rewrite Hr; assumption).
  { right. apply valid_price_shown, V. }
  destruct (K _ _ E) as (st' & R & Hp' & Hs' & Hr' & He').
  exists st'. rewrite R, Hp', Hs', Hr', He', Hr2, He2, Hr, He. auto.
Qed.

(** The example of the specification: A fails, B returns 50000. *)
Lemma fetchBtcPrice_stops_at_first_valid_witness :
  exists st',
    fetchBtcPrice (replies [Rejected; ok_json (json_Blockchain (VNum (Fin 50000)))])
                  API_SOURCES (initial page_with_ui)
      = (Normal (VNum (Fin 50000)), st') /\
    btcPrice st' = VNum (Fin 50000) /\
    currentApiSource st' = Some "Blockchain.info" /\
    requests st' =
      [ "https://api.coingecko.com/api/v3/simple/price?ids=bitcoin&vs_currencies=eur";
        "https://blockchain.info/ticker" ] /\
    events st' = [price_event (VNum (Fin 50000))].
Proof.
  apply (fetchBtcPrice_stops_at_first_valid
           (replies [Rejected; ok_json (json_Blockchain (VNum (Fin 50000)))])
           API_SOURCES (initial page_with_ui) 1
           (mkSource "Blockchain.info" "https://blockchain.info/ticker"
                     parse_Blockchain)
           (VNum (Fin 50000))); reflexivity.
Defined.

(** C4: whatever the network answers and whatever the parse rules do,
    [fetchBtcPrice] completes normally with a value; nothing is thrown past
    it. *)
Theorem fetchBtcPrice_never_throws net sources st :
  exists v st', fetchBtcPrice net sources st = (Normal v, st').
Proof.
  destruct (fetchBtcPrice_run net sources st)
    as (pd & disp & asd & st1 & _ & _ & _ & _ & K).
  destruct (for_of_total net pd disp asd sources st1) as (r & st2 & E).
  destruct (K _ _ E) as (st' & R & _). eauto.
Qed.

(** C2, as stated, fails: with 50000 recorded by an earlier call, a call in
    which the first source answers a document without the price in it and
    the others are unreachable gets no valid price from any source, yet the
    recorded price becomes [undefined].  With no price display attached the
    call also returns [undefined] instead of [null]; with the display
    attached it returns [null]. *)
Lemma failed_sources_keep_price_fails :
  ~ failed_sources_keep_price net_price_then_missing API_SOURCES
      (snd (fetchBtcPrice net_price_then_missing API_SOURCES
              (initial page_without_ui))) /\
  ~ failed_sources_keep_price net_price_then_missing API_SOURCES
      (snd (fetchBtcPrice net_price_then_missing API_SOURCES
              (initial page_with_ui))).
Proof.
  split; intros H; vm_compute in H;
    destruct (H eq_refl) as (_ & H1 & _); discriminate H1.
Qed.

(** C2, amended: when every source fails outright (its request is rejected,
    its response is not ok, its body is not JSON, or its parse rule throws),
    [fetchBtcPrice] returns [null], signals nothing, and leaves the recorded
    price and source name as they were; each source has been asked once, and
    a price dot or price display that is on the page shows the failure. *)
Theorem fetchBtcPrice_all_fail net sources st :
  all_fail net (List.length (requests st)) sources = true ->
  exists st',
    fetchBtcPrice net sources st = (Normal VNull, st') /\
    btcPrice st' = btcPrice st /\
    currentApiSource st' = currentApiSource st /\
    requests st' = (requests st ++ map url sources)%list /\
    events st' = events st /\
    (find_element "price-dot" (dom st) <> None ->
     exists e, find_element "price-dot" (dom st') = Some e /\
               className e = "price-dot error") /\
    (find_element "btc-price" (dom st) <> None ->
     exists e, find_element "btc-price" (dom st') = Some e /\
               textContent e = Txt "sin conexión").
Proof.
  intros F. run_page.
  destruct (find_element "price-dot" (dom st)) as [dot|] eqn:Dot,
           (find_element "btc-price" (dom st)) as [disp|] eqn:Disp,
           (find_element "api-source" (dom st)) as [src|] eqn:Src; simpl;
    match goal with
    | |- context [for_of (attempt net ?pd ?pr ?asd) sources ?s] =>
        destruct (for_of_all_fail net pd pr asd sources s F)
          as (st2 & E & Hp & Hs & Hd & Hr & He); simpl in *
    end;
    rewrite E; simpl; eexists; (split; [reflexivity|]); simpl;
    rewrite Hd; repeat split; auto; try congruence; intros _;
    repeat first
      [ rewrite find_update_same
      | rewrite find_update_other by discriminate ];
    try rewrite Dot; try rewrite Disp; simpl; eauto.
Qed.

Lemma fetchBtcPrice_all_fail_witness :
  exists st',
    fetchBtcPrice net_down API_SOURCES (state_with_price 50000)
      = (Normal VNull, st') /\
    btcPrice st' = VNum (Fin 50000) /\
    currentApiSource st' = Some "CoinGecko" /\
    requests st' =
      (requests (state_with_price 50000) ++ map url API_SOURCES)%list /\
    events st' = events (state_with_price 50000) /\
    (find_element "price-dot" (dom (state_with_price 50000)) <> None ->
     exists e, find_element "price-dot" (dom st') = Some e /\
               className e = "price-dot error") /\
    (find_element "btc-price" (dom (state_with_price 50000)) <> None ->
     exists e, find_element "btc-price" (dom st') = Some e /\
               textContent e = Txt "sin conexión").
Proof.
  apply (fetchBtcPrice_all_fail net_down API_SOURCES (state_with_price 50000)).
  reflexivity.
Defined.

(** C3, as stated, fails: a source that answers the text ["n/a"] for the
    price has it recorded as the current price and signalled as a success. *)
Lemma records_only_valid_prices_fails :
  ~ records_only_valid_prices net_text_price API_SOURCES (initial page_with_ui).
Proof.
  intros [[H|H] _]; vm_compute in H; discriminate H.
Qed.

(** One call of [fetchBtcPrice] asks some first sources; afterwards the
    recorded price is either the one from before the call (when none of the
    sources asked yielded a value; the call then returns [null] and signals
    nothing) or the value returned by the parse rule of the last source
    asked that yielded one, recorded with that source's name; success is
    signalled only together with returning that value. *)
Lemma fetchBtcPrice_records_last_parsed net sources st :
  exists r st' n,
    fetchBtcPrice net sources st = (Normal r, st') /\
    requests st' = (requests st ++ map url (firstn n sources))%list /\
    ((btcPrice st' = btcPrice st /\
      currentApiSource st' = currentApiSource st /\
      all_fail net (List.length (requests st)) (firstn n sources) = true /\
      r = VNull /\ events st' = events st) \/
     (exists j api v,
        nth_error (firstn n sources) j = Some api /\
        answer_of net (List.length (requests st) + j) api = Yields v /\
        btcPrice st' = v /\
        currentApiSource st' = Some (name api) /\
        all_fail net (List.length (requests st) + S j)
                 (skipn (S j) (firstn n sources)) = true /\
        ((r = v /\ events st' = (events st ++ [price_event v])%list) \/
         events st' = events st))).
Proof.
  destruct (fetchBtcPrice_run net sources st)
    as (pd & disp & asd & st1 & Hp & Hs & Hr & He & K).
  destruct (for_of_total net pd disp asd sources st1) as (r & st2 & E).
  destruct (K _ _ E) as (st' & R & Hp' & Hs' & Hr' & He').
  destruct (for_of_recorded net pd disp asd sources _ _ _ E)
    as (n & Hr2 & [(P & S' & F & Rn & Ev)
                  | (j & api & v & N & Y & P & S' & F & Ev)]).
  - exists VNull, st', n. subst r.
    rewrite R, Hp', Hs', Hr', He', Hr2, P, S', Ev, Hp, Hs, He, <- Hr.
    auto 10.
  - exists (match r with Some w => w | None => VNull end), st', n.
    rewrite R, Hp', Hs', Hr', He', Hr2, <- Hr.
    split; [reflexivity|]. split; [reflexivity|]. right.
    exists j, api, v. rewrite <- He.
    repeat split; try assumption.
    destruct Ev as [[-> Ev] | [_ Ev]]; auto.
Qed.

(** The converters write nothing. *)
Lemma conversions_keep_state f :
  In f conversions ->
  forall st x, snd (f x st) = st.
Proof.
  simpl. intros [<-|[<-|[<-|[<-|[]]]]] st x; run_conv;
    repeat match goal with
           | |- context [if ?c then _ else _] => destruct c; simpl
           | |- context [match ToNumber ?v with _ => _ end] =>
               destruct (ToNumber v); simpl
           end; reflexivity.
Qed.

(** C3, amended: in every state the page can reach, the current price is
    either unset ([null], with no source name) or a value that the parse
    rule of a configured source returned for a request made so far, numeric
    or not, recorded with that source's name; and the next call of
    [fetchBtcPrice] leaves either the price it found or the value of the
    last source it asked whose parse rule returned, signalling success only
    together with returning that value. *)
Theorem current_price_invariant net sources d st :
  reachable net sources d st ->
  ((btcPrice st = VNull /\ currentApiSource st = None) \/
   recorded_from_source net sources st) /\
  exists r st' n,
    fetchBtcPrice net sources st = (Normal r, st') /\
    requests st' = (requests st ++ map url (firstn n sources))%list /\
    ((btcPrice st' = btcPrice st /\
      currentApiSource st' = currentApiSource st /\
      all_fail net (List.length (requests st)) (firstn n sources) = true /\
      r = VNull /\ events st' = events st) \/
     (exists j api v,
        nth_error (firstn n sources) j = Some api /\
        answer_of net (List.length (requests st) + j) api = Yields v /\
        btcPrice st' = v /\
        currentApiSource st' = Some (name api) /\
        all_fail net (List.length (requests st) + S j)
                 (skipn (S j) (firstn n sources)) = true /\
        ((r = v /\ events st' = (events st ++ [price_event v])%list) \/
         events st' = events st))).
Proof.
  intros R. split; [|apply fetchBtcPrice_records_last_parsed].
  induction R as [|st R IH|st R IH|st f x I R IH].
  - left. split; reflexivity.
  - destruct (fetchBtcPrice_records_last_parsed net sources st)
      as (r & st' & n & E & Hr & [(P & S' & _) | (j & api & v & N & Y & P & S' & _)]);
      rewrite E; simpl.
    + destruct IH as [[Hp Hs] | (k & api & v & I & N & Y & Hp & Hs)].
      * left. split; congruence.
      * right. exists k, api, v. rewrite Hr, P, S'.
        repeat split; try assumption.
        rewrite nth_error_app1; [exact N|].
        apply nth_error_Some. congruence.
    + right. exists (List.length (requests st) + j)%nat, api, v.
      rewrite Hr. repeat split; try assumption.
      * apply nth_error_In in N.
        rewrite <- (firstn_skipn n sources). apply in_or_app. left. exact N.
      * rewrite nth_error_app2 by lia.
        replace (List.length (requests st) + j - List.length (requests st))%nat
          with j by lia.
        rewrite nth_error_map, N. reflexivity.
  - exact IH.
  - rewrite (conversions_keep_state f I). exact IH.
Qed.

Lemma current_price_invariant_witness :
  ((btcPrice (initial page_with_ui) = VNull /\
    currentApiSource (initial page_with_ui) = None) \/
   recorded_from_source net_text_price API_SOURCES (initial page_with_ui)) /\
  exists r st' n,
    fetchBtcPrice net_text_price API_SOURCES (initial page_with_ui)
      = (Normal r, st') /\
    requests st'
      = (requests (initial page_with_ui)
           ++ map url (firstn n API_SOURCES))%list /\
    ((btcPrice st' = btcPrice (initial page_with_ui) /\
      currentApiSource st' = currentApiSource (initial page_with_ui) /\
      all_fail net_text_price
        (List.length (requests (initial page_with_ui)))
        (firstn n API_SOURCES) = true /\
      r = VNull /\ events st' = events (initial page_with_ui)) \/
     (exists j api v,
        nth_error (firstn n API_SOURCES) j = Some api /\
        answer_of net_text_price
          (List.length (requests (initial page_with_ui)) + j) api = Yields v /\
        btcPrice st' = v /\
        currentApiSource st' = Some (name api) /\
        all_fail net_text_price
          (List.length (requests (initial page_with_ui)) + S j)
          (skipn (S j) (firstn n API_SOURCES)) = true /\
        ((r = v /\
          events st' = (events (initial page_with_ui) ++ [price_event v])%list) \/
         events st' = events (initial page_with_ui)))).
Proof.
  apply (current_price_invariant net_text_price API_SOURCES page_with_ui).
  apply reach_initial.
Defined.

(** C10, as stated, fails.  After a first fetch has recorded 50000 from the
    second source, a second fetch whose first source answers [null] for the
    price returns [null], yet the recorded price and name have changed. *)
Lemma result_agrees_with_state_fails :
  ~ result_agrees_with_state net_price_then_null API_SOURCES
      (snd (fetchBtcPrice net_price_then_null API_SOURCES
              (initial page_without_ui))).
Proof.
  intros H. vm_compute in H. destruct H as [H _]. discriminate H.
Qed.

(** C10, amended: a result [v] other than [null] is the recorded price, as
    [getBtcPrice] reads it, and the recorded name is that of the source that
    yielded [v], the last one asked; and when every source fails outright
    the result is [null] and the recorded price and name are the ones from
    before the call. *)
Theorem fetchBtcPrice_result_agrees net sources st v st' :
  fetchBtcPrice net sources st = (Normal v, st') ->
  (v <> VNull ->
   getBtcPrice st' = (Normal v, st') /\
   exists i api,
     nth_error sources i = Some api /\
     answer_of net (List.length (requests st) + i) api = Yields v /\
     currentApiSource st' = Some (name api) /\
     requests st' = (requests st ++ map url (firstn (S i) sources))%list) /\
  (all_fail net (List.length (requests st)) sources = true ->
   v = VNull /\
   btcPrice st' = btcPrice st /\
   currentApiSource st' = currentApiSource st).
Proof.
  intros Run. split.
  - intros NN.
    destruct (fetchBtcPrice_run net sources st)
      as (pd & disp & asd & st1 & Hp & Hs & Hr & He & K).
    destruct (for_of_total net pd disp asd sources st1) as (r & st2 & E).
    destruct (K _ _ E) as (st'' & R & Hp' & Hs' & Hr' & He').
    rewrite Run in R. injection R as -> <-.
    destruct r as [w|]; [|congruence].
    destruct (for_of_returned net pd disp asd sources _ _ _ E)
      as (P & i & api & N & Y & S' & Hr2 & _).
    unfold getBtcPrice, gets. rewrite Hp', P. split; [reflexivity|].
    exists i, api. rewrite Hs', Hr', Hr2, <- Hr. auto.
  - intros F.
    destruct (fetchBtcPrice_skips_failures net sources st F)
      as (st'' & R & Hp & Hs & _).
    rewrite Run in R. injection R as -> ->. auto.
Qed.

Lemma fetchBtcPrice_result_agrees_witness :
  (VNum (Fin 50000) <> VNull ->
   getBtcPrice
     (snd (fetchBtcPrice net_missing_then_price API_SOURCES
             (initial page_with_ui)))
   = (Normal (VNum (Fin 50000)),
      snd (fetchBtcPrice net_missing_then_price API_SOURCES
             (initial page_with_ui))) /\
   exists i api,
     nth_error API_SOURCES i = Some api /\
     answer_of net_missing_then_price
       (List.length (requests (initial page_with_ui)) + i) api
       = Yields (VNum (Fin 50000)) /\
     currentApiSource
       (snd (fetchBtcPrice net_missing_then_price API_SOURCES
               (initial page_with_ui))) = Some (name api) /\
     requests
       (snd (fetchBtcPrice net_missing_then_price API_SOURCES
               (initial page_with_ui)))
     = (requests (initial page_with_ui)
          ++ map url (firstn (S i) API_SOURCES))%list) /\
  (all_fail net_missing_then_price
     (List.length (requests (initial page_with_ui))) API_SOURCES = true ->
   VNum (Fin 50000) = VNull /\
   btcPrice
     (snd (fetchBtcPrice net_missing_then_price API_SOURCES
             (initial page_with_ui)))
   = btcPrice (initial page_with_ui) /\
   currentApiSource
     (snd (fetchBtcPrice net_missing_then_price API_SOURCES
             (initial page_with_ui)))
   = currentApiSource (initial page_with_ui)).
Proof.
  apply (fetchBtcPrice_result_agrees net_missing_then_price API_SOURCES
           (initial page_with_ui)).
  vm_compute. reflexivity.
Defined.

(** Where no source yields a value that cannot be shown, the page plays no
    part: two fetches from states that differ in the page only return the
    same result and record the same. *)
Lemma for_of_same_record net pd disp asd pd' disp' asd' apis :
  forall st1 st2,
    same_record st1 st2 ->
    all_shown net (List.length (requests st1)) apis = true ->
    exists r st1' st2',
      for_of (attempt net pd disp asd) apis st1 = (Normal r, st1') /\
      for_of (attempt net pd' disp' asd') apis st2 = (Normal r, st2') /\
      same_record st1' st2'.
Proof.
  induction apis as [|a rest IH]; intros st1 st2 (Hp & Hs & Hr & He); simpl.
  - intros _. exists None, st1, st2. unfold ret, same_record. auto 10.
  - intros Sh. apply andb_true_iff in Sh as [Sa Sh]. unfold bind.
    destruct (answer_of net (List.length (requests st1)) a) eqn:A.
    + destruct (attempt_fails net pd disp asd _ _ A)
        as (t1 & E1 & P1 & S1 & _ & R1 & V1).
      rewrite Hr in A.
      destruct (attempt_fails net pd' disp' asd' _ _ A)
        as (t2 & E2 & P2 & S2 & _ & R2 & V2).
      rewrite E1, E2. apply IH.
      * unfold same_record. rewrite P1, P2, S1, S2, R1, R2, V1, V2.
        repeat split; congruence.
      * rewrite R1, length_app, Nat.add_1_r. exact Sh.
    + apply negb_true_iff in Sa.
      destruct (attempt_yields net pd disp asd _ _ _ A)
        as (c1 & t1 & E1 & P1 & S1 & R1 & [(-> & V1 & _) | (_ & _ & _ & T)]);
        [|congruence].
      rewrite Hr in A.
      destruct (attempt_yields net pd' disp' asd' _ _ _ A)
        as (c2 & t2 & E2 & P2 & S2 & R2 & [(-> & V2 & _) | (_ & _ & _ & T)]);
        [|congruence].
      rewrite E1, E2. exists (Some v), t1, t2. unfold ret, same_record.
      repeat split; congruence.
Qed.

Lemma fetchBtcPrice_same_record net sources st1 st2 :
  same_record st1 st2 ->
  all_shown net (List.length (requests st1)) sources = true ->
  fst (fetchBtcPrice net sources st1) = fst (fetchBtcPrice net sources st2) /\
  same_record (snd (fetchBtcPrice net sources st1))
              (snd (fetchBtcPrice net sources st2)).
Proof.
  intros (Hp & Hs & Hr & He) Sh.
  destruct (fetchBtcPrice_run net sources st1)
    as (pd & disp & asd & t1 & P1 & S1 & R1 & V1 & K1).
  destruct (fetchBtcPrice_run net sources st2)
    as (pd' & disp' & asd' & t2 & P2 & S2 & R2 & V2 & K2).
  destruct (for_of_same_record net pd disp asd pd' disp' asd' sources t1 t2)
    as (r & t1' & t2' & E1 & E2 & (P & S' & R & V)).
  { unfold same_record. repeat split; congruence. }
  { rewrite R1. exact Sh. }
  destruct (K1 _ _ E1) as (u1 & F1 & P1' & S1' & R1' & V1').
  destruct (K2 _ _ E2) as (u2 & F2 & P2' & S2' & R2' & V2').
  rewrite F1, F2. simpl. unfold same_record.
  repeat split; congruence.
Qed.

(** C9, at the failing input: the first source answers a document without
    the price and the second answers 50000.  Without the presentation
    elements the fetch returns [undefined] from the first source; with them
    it returns 50000 from the second. *)
Theorem fetchBtcPrice_depends_on_ui :
  let without := fetchBtcPrice net_missing_then_price API_SOURCES
                   (initial page_without_ui) in
  let with_ui := fetchBtcPrice net_missing_then_price API_SOURCES
                   (initial page_with_ui) in
  fst without = Normal VUndefined /\
  btcPrice (snd without) = VUndefined /\
  currentApiSource (snd without) = Some "CoinGecko" /\
  List.length (requests (snd without)) = 1%nat /\
  fst with_ui = Normal (VNum (Fin 50000)) /\
  btcPrice (snd with_ui) = VNum (Fin 50000) /\
  currentApiSource (snd with_ui) = Some "Blockchain.info" /\
  List.length (requests (snd with_ui)) = 2%nat /\
  warnings (snd with_ui) = [("API CoinGecko falló:", TypeError)].
Proof. vm_compute. repeat split. Qed.

(** ** The conversions *)

Lemma num_div_sats_le_0 x :
  num_le x (Fin 0) = true -> num_le (num_div x SATS_PER_BTC) (Fin 0) = true.
Proof.
  destruct x as [| | |q]; simpl; try congruence.
  rewrite !Qle_bool_iff. intros H.
  unfold Qdiv. setoid_replace 0 with (0 * / 100000000) by ring.
  apply Qmult_le_compat_r; [exact H | discriminate].
Qed.

(** The result of a converter depends on the state through the recorded
    price only. *)
Lemma conversions_read_price f :
  In f conversions ->
  forall st st2 x,
    btcPrice st2 = btcPrice st -> fst (f x st2) = fst (f x st).
Proof.
  simpl. intros [<-|[<-|[<-|[<-|[]]]]] st st2 x; run_conv; intros ->;
    repeat match goal with
           | |- context [if ?c then _ else _] => destruct c; simpl
           | |- context [match ToNumber ?v with _ => _ end] =>
               destruct (ToNumber v); simpl
           end; reflexivity.
Qed.

Lemma conversions_falsy_or_nonpositive f :
  In f conversions ->
  forall st x,
    ToBoolean (btcPrice st) = false \/ num_le x (Fin 0) = true ->
    f x st = (Normal (Fin 0), st).
Proof.
  simpl. intros [<-|[<-|[<-|[<-|[]]]]] st x [H|H]; run_conv;
    try rewrite H; try rewrite (num_div_sats_le_0 _ H); simpl;
    rewrite ?orb_true_r; reflexivity.
Qed.

(** C5: each converter returns 0 when no price is recorded or the amount is
    not positive, and [eurToSats(0)] and [eurToSats(-5)] are 0 whatever is
    recorded; a converter leaves the state as it is, and its result depends
    on the state through the recorded price only. *)
Theorem conversions_zero_and_pure f :
  In f conversions ->
  forall st x,
    (btcPrice st = VNull \/ num_le x (Fin 0) = true ->
     f x st = (Normal (Fin 0), st)) /\
    eurToSats (Fin 0) st = (Normal (Fin 0), st) /\
    eurToSats (Fin (-5)) st = (Normal (Fin 0), st) /\
    snd (f x st) = st /\
    (forall st2, btcPrice st2 = btcPrice st -> fst (f x st2) = fst (f x st)).
Proof.
  intros I st x. repeat split.
  - intros [H|H]; apply conversions_falsy_or_nonpositive; auto.
    left. rewrite H. reflexivity.
  - apply (conversions_falsy_or_nonpositive eurToSats); simpl; auto.
  - apply (conversions_falsy_or_nonpositive eurToSats); simpl; auto.
  - apply conversions_keep_state, I.
  - intros st2 E. apply conversions_read_price; assumption.
Qed.

Lemma conversions_zero_and_pure_witness :
  (btcPrice (state_with_price 50000) = VNull \/
   num_le (Fin (-5)) (Fin 0) = true ->
   satsToEur (Fin (-5)) (state_with_price 50000)
     = (Normal (Fin 0), state_with_price 50000)) /\
  eurToSats (Fin 0) (state_with_price 50000)
    = (Normal (Fin 0), state_with_price 50000) /\
  eurToSats (Fin (-5)) (state_with_price 50000)
    = (Normal (Fin 0), state_with_price 50000) /\
  snd (satsToEur (Fin (-5)) (state_with_price 50000))
    = state_with_price 50000 /\
  (forall st2, btcPrice st2 = btcPrice (state_with_price 50000) ->
     fst (satsToEur (Fin (-5)) st2)
       = fst (satsToEur (Fin (-5)) (state_with_price 50000))).
Proof.
  apply (conversions_zero_and_pure satsToEur).
  simpl. auto.
Defined.

Lemma positive_not_le_0 q : 0 < q -> Qle_bool q 0 = false.
Proof.
  intros H. destruct (Qle_bool q 0) eqn:E; [|reflexivity].
  apply Qle_bool_iff in E. lra.
Qed.

Lemma positive_not_zero q : 0 < q -> is_zero q = false.
Proof.
  intros H. unfold is_zero. destruct (Qeq_bool q 0) eqn:E; [|reflexivity].
  apply Qeq_bool_eq in E. lra.
Qed.

Lemma eurToBtc_priced st a P :
  btcPrice st = VNum (Fin P) -> 0 < a -> 0 < P ->
  eurToBtc (Fin a) st = (Normal (Fin (a / P)), st).
Proof.
  intros E Ha HP. run_conv. rewrite E. simpl.
  rewrite (positive_not_zero _ HP), (positive_not_le_0 _ Ha). reflexivity.
Qed.

Lemma btcToEur_priced st b P :
  btcPrice st = VNum (Fin P) -> 0 < b -> 0 < P ->
  btcToEur (Fin b) st = (Normal (Fin (b * P)), st).
Proof.
  intros E Hb HP. run_conv. rewrite E. simpl.
  rewrite (positive_not_zero _ HP), (positive_not_le_0 _ Hb). reflexivity.
Qed.

Lemma eurToSats_priced st a P :
  btcPrice st = VNum (Fin P) -> 0 < a -> 0 < P ->
  eurToSats (Fin a) st
  = (Normal (Fin (inject_Z (Qfloor (a / P * 100000000 + (1 # 2))))), st).
Proof.
  intros E Ha HP. unfold eurToSats, bind.
  rewrite (eurToBtc_priced _ _ _ E Ha HP). reflexivity.
Qed.

Lemma Qdiv_pos a P : 0 < a -> 0 < P -> 0 < a / P.
Proof.
  intros Ha HP. unfold Qdiv. apply Qmult_lt_0_compat; [exact Ha|].
  apply Qinv_lt_0_compat, HP.
Qed.

(** [Math.round] is within a half of its argument. *)
Lemma round_half x :
  x - (1 # 2) < inject_Z (Qfloor (x + (1 # 2))) <= x + (1 # 2).
Proof.
  split.
  - pose proof (Qlt_floor (x + (1 # 2))) as H.
    rewrite inject_Z_plus in H. change (inject_Z 1) with 1 in H.
    generalize dependent (inject_Z (Qfloor (x + (1 # 2)))). intros f H. lra.
  - apply Qfloor_le.
Qed.

(** C8, as stated, fails: for the amount [NaN] (what [parseFloat] makes of
    an empty input) and a recorded price of 50000, [eurToSats] returns
    [NaN]. *)
Lemma returns_nonneg_integer_fails :
  nonneg_price_or_unset (btcPrice (state_with_price 50000)) /\
  ~ returns_nonneg_integer (state_with_price 50000) NaN.
Proof.
  split.
  - right. right. exists 50000. split; [reflexivity | discriminate].
  - intros (n & E & H). vm_compute in E. injection E as <-. exact H.
Qed.

Lemma nonneg_integer_0 : nonneg_integer (Fin 0).
Proof. exists 0%Z. split; [lia | reflexivity]. Qed.

(** C8, amended: for every amount other than [NaN] and [+Infinity], and
    every recorded price that is not negative or is unset, [eurToSats]
    returns a whole number of satoshis that is not negative. *)
Theorem eurToSats_nonneg_integer st (x : number) :
  x <> NaN -> x <> PInf ->
  nonneg_price_or_unset (btcPrice st) ->
  exists n, eurToSats x st = (Normal n, st) /\ nonneg_integer n.
Proof.
  intros NN NI Hp.
  assert (Zero : ToBoolean (btcPrice st) = false \/ num_le x (Fin 0) = true ->
                 exists n, eurToSats x st = (Normal n, st) /\ nonneg_integer n).
  { intros H. exists (Fin 0). split; [|exact nonneg_integer_0].
    apply (conversions_falsy_or_nonpositive eurToSats); simpl; auto. }
  destruct x as [| | |a]; try congruence.
  - apply Zero. right. reflexivity.
  - destruct (Qlt_le_dec 0 a) as [Ha|Ha].
    2:{ apply Zero. right. simpl. apply Qle_bool_iff, Ha. }
    destruct Hp as [E | [E | (p & E & Hp)]].
    + apply Zero. left. rewrite E. reflexivity.
    + exists (Fin 0). split; [|exact nonneg_integer_0].
      run_conv. rewrite E. simpl. rewrite (positive_not_le_0 _ Ha).
      reflexivity.
    + destruct (Qlt_le_dec 0 p) as [Pos|NonPos].
      * rewrite (eurToSats_priced _ _ _ E Ha Pos).
        eexists. split; [reflexivity|].
        exists (Qfloor (a / p * 100000000 + (1 # 2))).
        split; [|reflexivity].
        change 0%Z with (Qfloor 0). apply Qfloor_resp_le.
        pose proof (Qdiv_pos _ _ Ha Pos). lra.
      * apply Zero. left. rewrite E. simpl.
        assert (Z0 : p == 0) by lra.
        apply Qeq_bool_iff in Z0. unfold is_zero. rewrite Z0. reflexivity.
Qed.

Lemma eurToSats_nonneg_integer_witness :
  exists n, eurToSats (Fin 100) (state_with_price 50000)
              = (Normal n, state_with_price 50000) /\
            nonneg_integer n.
Proof.
  apply (eurToSats_nonneg_integer (state_with_price 50000) (Fin 100)).
  - discriminate.
  - discriminate.
  - right. right. exists 50000. split; [reflexivity | discriminate].
Defined.

(** C6: the third source is CoinCap, and its parse rule is the dollar price
    of the response times the constant 0.92, whatever the response: nothing
    else of the response, and no exchange rate from anywhere, enters the
    result. *)
Theorem CoinCap_fixed_rate :
  exists api,
    nth_error API_SOURCES 2 = Some api /\
    name api = "CoinCap" /\
    forall data,
      parsePrice api data
        = cbind (priceUsd_of data)
                (fun usd => Normal (VNum (num_mul usd (Fin 0.92)))) /\
      (forall usd : Q,
         priceUsd_of data = Normal (Fin usd) ->
         exists eur,
           parsePrice api data = Normal (VNum (Fin eur)) /\
           eur == usd * (23 # 25)) /\
      (forall data',
         priceUsd_of data' = priceUsd_of data ->
         parsePrice api data' = parsePrice api data).
Proof.
  eexists. split; [reflexivity|]. split; [reflexivity|].
  assert (Shape : forall data,
    parse_CoinCap data
      = cbind (priceUsd_of data)
              (fun usd => Normal (VNum (num_mul usd (Fin 0.92))))).
  { intros data. unfold parse_CoinCap, priceUsd_of.
    destruct (get_prop data "data") as [d|]; simpl; [|reflexivity].
    destruct (get_prop d "priceUsd") as [p|]; simpl; reflexivity. }
  intros data. simpl parsePrice. repeat split.
  - apply Shape.
  - intros usd E. rewrite Shape, E. simpl.
    eexists. split; [reflexivity|].
    apply Qmult_comp; reflexivity.
  - intros data' E. rewrite !Shape, E. reflexivity.
Qed.

(** A response of CoinCap, where the price is text: 50000 dollars are
    recorded as 46000 euros. *)
Example CoinCap_50000 :
  exists eur,
    parse_CoinCap (json_CoinCap (VStr "50000.00")) = Normal (VNum (Fin eur)) /\
    eur == 46000.
Proof. eexists. split; [vm_compute; reflexivity | reflexivity]. Qed.

(** ** More on the conversions *)

(** What [eurToSats] returns under a positive price, for any finite
    amount. *)
Lemma eurToSats_cases st a P :
  btcPrice st = VNum (Fin P) -> 0 < P ->
  exists r : Z,
    eurToSats (Fin a) st = (Normal (Fin (inject_Z r)), st) /\
    ((a <= 0 /\ r = 0%Z) \/
     (0 < a /\ r = Qfloor (a / P * 100000000 + (1 # 2)))).
Proof.
  intros E HP. destruct (Qlt_le_dec 0 a) as [Ha|Ha].
  - rewrite (eurToSats_priced _ _ _ E Ha HP). eauto.
  - exists 0%Z. split; [|auto].
    apply (conversions_falsy_or_nonpositive eurToSats); simpl; auto.
    right. apply Qle_bool_iff, Ha.
Qed.

(** More euros never buy fewer satoshis: under a positive price,
    [eurToSats] is monotone in the amount, over all finite amounts. *)
Theorem eurToSats_monotone st (a b P : Q) :
  btcPrice st = VNum (Fin P) -> 0 < P -> a <= b ->
  exists ra rb : Z,
    eurToSats (Fin a) st = (Normal (Fin (inject_Z ra)), st) /\
    eurToSats (Fin b) st = (Normal (Fin (inject_Z rb)), st) /\
    (0 <= ra <= rb)%Z.
Proof.
  intros E HP Hab.
  destruct (eurToSats_cases st a P E HP) as (ra & Ea & Ca).
  destruct (eurToSats_cases st b P E HP) as (rb & Eb & Cb).
  exists ra, rb. split; [exact Ea|]. split; [exact Eb|].
  assert (Nonneg : forall x, 0 < x ->
            (0 <= Qfloor (x / P * 100000000 + (1 # 2)))%Z).
  { intros x Hx. change 0%Z with (Qfloor 0). apply Qfloor_resp_le.
    pose proof (Qdiv_pos _ _ Hx HP). lra. }
  destruct Ca as [[Ha ->] | [Ha ->]], Cb as [[Hb ->] | [Hb ->]].
  - lia.
  - split; [lia | apply Nonneg, Hb].
  - lra.
  - split; [apply Nonneg, Ha|]. apply Qfloor_resp_le.
    assert (a / P <= b / P).
    { unfold Qdiv. apply Qmult_le_compat_r; [exact Hab|].
      apply Qlt_le_weak, Qinv_lt_0_compat, HP. }
    lra.
Qed.

Lemma eurToSats_monotone_witness :
  exists ra rb : Z,
    eurToSats (Fin 10) (state_with_price 50000)
      = (Normal (Fin (inject_Z ra)), state_with_price 50000) /\
    eurToSats (Fin 20) (state_with_price 50000)
      = (Normal (Fin (inject_Z rb)), state_with_price 50000) /\
    (0 <= ra <= rb)%Z.
Proof.
  apply (eurToSats_monotone (state_with_price 50000) 10 20 50000);
    [reflexivity | reflexivity | discriminate].
Defined.

(** A higher price never buys more satoshis: for the same amount,
    [eurToSats] under the higher of two positive prices is at most what it
    is under the lower. *)
Theorem eurToSats_antitone_in_price st1 st2 (a P1 P2 : Q) :
  btcPrice st1 = VNum (Fin P1) -> btcPrice st2 = VNum (Fin P2) ->
  0 < P1 -> P1 <= P2 ->
  exists r1 r2 : Z,
    eurToSats (Fin a) st1 = (Normal (Fin (inject_Z r1)), st1) /\
    eurToSats (Fin a) st2 = (Normal (Fin (inject_Z r2)), st2) /\
    (r2 <= r1)%Z.
Proof.
  intros E1 E2 H1 H12.
  assert (H2 : 0 < P2) by lra.
  destruct (eurToSats_cases st1 a P1 E1 H1) as (r1 & Ea & C1).
  destruct (eurToSats_cases st2 a P2 E2 H2) as (r2 & Eb & C2).
  exists r1, r2. split; [exact Ea|]. split; [exact Eb|].
  destruct C1 as [[Ha ->] | [Ha ->]], C2 as [[Hb ->] | [Hb ->]];
    try lia; try lra.
  apply Qfloor_resp_le.
  assert (a / P2 <= a / P1).
  { apply Qle_shift_div_r; [exact H2|].
    setoid_replace (a / P1 * P2) with (a * (P2 / P1)) by (field; lra).
    setoid_replace a with (a * 1) at 1 by ring.
    apply Qmult_le_l; [exact Ha|].
    apply Qle_shift_div_l; [exact H1 | lra]. }
  lra.
Qed.

Lemma eurToSats_antitone_in_price_witness :
  exists r1 r2 : Z,
    eurToSats (Fin 100) (state_with_price 40000)
      = (Normal (Fin (inject_Z r1)), state_with_price 40000) /\
    eurToSats (Fin 100) (state_with_price 50000)
      = (Normal (Fin (inject_Z r2)), state_with_price 50000) /\
    (r2 <= r1)%Z.
Proof.
  apply (eurToSats_antitone_in_price
           (state_with_price 40000) (state_with_price 50000) 100 40000 50000);
    [reflexivity | reflexivity | reflexivity | discriminate].
Defined.

(** ** Fetching, then converting *)

(** The sources before position [i] fail outright and source [i] yields a
    value that can be shown: the fetch returns and records it. *)
Lemma fetchBtcPrice_first_shown net sources st i api v :
  all_fail net (List.length (requests st)) (firstn i sources) = true ->
  nth_error sources i = Some api ->
  answer_of net (List.length (requests st) + i) api = Yields v ->
  toLocaleString_throws v = false ->
  exists st',
    fetchBtcPrice net sources st = (Normal v, st') /\
    btcPrice st' = v /\
    currentApiSource st' = Some (name api).
Proof.
  intros F N A V.
  destruct (fetchBtcPrice_run net sources st)
    as (pd & disp & asd & st1 & Hp & Hs & Hr & He & K).
  destruct (for_of_first net pd disp asd i sources st1 api v)
    as (st2 & E & Hp2 & Hs2 & Hr2 & He2);
    try assumption; try (rewrite Hr; assumption); [auto|].
  destruct (K _ _ E) as (st' & R & Hp' & Hs' & Hr' & He').
  exists st'. rewrite R, Hp', Hs', Hp2, Hs2. auto.
Qed.

(** A fetch in which every source fails outright changes no conversion:
    each converter returns afterwards what it returned before, so a price
    recorded earlier stays in use. *)
Theorem failed_fetch_keeps_conversions net sources st f x :
  In f conversions ->
  all_fail net (List.length (requests st)) sources = true ->
  fst (f x (snd (fetchBtcPrice net sources st))) = fst (f x st).
Proof.
  intros I F.
  destruct (fetchBtcPrice_skips_failures net sources st F)
    as (st' & R & Hp & _).
  rewrite R. simpl. apply conversions_read_price; assumption.
Qed.

Lemma failed_fetch_keeps_conversions_witness :
  fst (eurToSats (Fin 100)
         (snd (fetchBtcPrice net_down API_SOURCES (state_with_price 50000))))
  = fst (eurToSats (Fin 100) (state_with_price 50000)).
Proof.
  apply (failed_fetch_keeps_conversions net_down API_SOURCES
           (state_with_price 50000) eurToSats (Fin 100)).
  - simpl. auto.
  - reflexivity.
Defined.

(** A fetch that gets the positive price [P] from the first source that
    does not fail outright puts the converters on that price, whatever was
    recorded before: [a] euros are [a / P] bitcoin and [b] bitcoin are
    [b * P] euros. *)
Theorem fetched_price_converts net sources st i api (P a b : Q) :
  all_fail net (List.length (requests st)) (firstn i sources) = true ->
  nth_error sources i = Some api ->
  answer_of net (List.length (requests st) + i) api = Yields (VNum (Fin P)) ->
  0 < P -> 0 < a -> 0 < b ->
  exists st',
    fetchBtcPrice net sources st = (Normal (VNum (Fin P)), st') /\
    eurToBtc (Fin a) st' = (Normal (Fin (a / P)), st') /\
    btcToEur (Fin b) st' = (Normal (Fin (b * P)), st').
Proof.
  intros F N A HP Ha Hb.
  destruct (fetchBtcPrice_first_shown net sources st i api _ F N A eq_refl)
    as (st' & R & E & _).
  exists st'. split; [exact R|]. split.
  - apply eurToBtc_priced; assumption.
  - apply btcToEur_priced; assumption.
Qed.

Lemma fetched_price_converts_witness :
  exists st',
    fetchBtcPrice
      (replies [Rejected; Rejected;
                ok_json (json_Blockchain (VNum (Fin 50000)))])
      API_SOURCES (state_with_price 40000)
      = (Normal (VNum (Fin 50000)), st') /\
    eurToBtc (Fin 100) st' = (Normal (Fin (100 / 50000)), st') /\
    btcToEur (Fin 2) st' = (Normal (Fin (2 * 50000)), st').
Proof.
  apply (fetched_price_converts
           (replies [Rejected; Rejected;
                     ok_json (json_Blockchain (VNum (Fin 50000)))])
           API_SOURCES (state_with_price 40000) 1
           (mkSource "Blockchain.info" "https://blockchain.info/ticker"
                     parse_Blockchain)
           50000 100 2); reflexivity.
Defined.

(** ** The page after a fetch *)

Section Page.

Variable net : network.
Variables priceDot priceDisplay apiSourceDisplay : option string.

Local Abbreviation turn := (attempt net priceDot priceDisplay apiSourceDisplay).
Local Abbreviation loop :=
  (for_of (attempt net priceDot priceDisplay apiSourceDisplay)).

(** A turn writes to the page only when it returns: a source that is
    skipped, for whatever reason, leaves the page as it was. *)
Lemma attempt_page api st c st' :
  turn api st = (Normal c, st') ->
  match c with
  | Continue => dom st' = dom st
  | Return v =>
      dom st' = shown_page priceDot priceDisplay apiSourceDisplay
                           (name api) v (dom st)
  end.
Proof.
  run_js.
  destruct (net _ _) as [|[[] [|d]]]; simpl;
    try (intros [= <- <-]; reflexivity).
  destruct (parsePrice api d) as [v|e]; simpl;
    try (intros [= <- <-]; reflexivity).
  destruct priceDisplay as [el|]; simpl.
  - destruct (toLocaleString_throws v); simpl;
      [intros [= <- <-]; reflexivity|].
    destruct apiSourceDisplay, priceDot; simpl;
      intros [= <- <-]; reflexivity.
  - destruct apiSourceDisplay, priceDot; simpl;
      intros [= <- <-]; reflexivity.
Qed.

Lemma for_of_page apis : forall st r st',
  loop apis st = (Normal r, st') ->
  match r with
  | None => dom st' = dom st
  | Some v =>
      exists nm,
        currentApiSource st' = Some nm /\
        dom st' = shown_page priceDot priceDisplay apiSourceDisplay
                             nm v (dom st)
  end.
Proof.
  induction apis as [|a rest IH]; intros st r st'; simpl.
  - unfold ret. intros [= <- <-]. reflexivity.
  - unfold bind.
    destruct (attempt_total net priceDot priceDisplay apiSourceDisplay a st)
      as (c & st1 & E).
    rewrite E. pose proof (attempt_page _ _ _ _ E) as D.
    destruct c as [|v].
    + intros R. specialize (IH _ _ _ R). rewrite D in IH. exact IH.
    + unfold ret. intros [= <- <-]. exists (name a). split; [|exact D].
      destruct (answer_of net (List.length (requests st)) a) eqn:A.
      * destruct (attempt_fails net priceDot priceDisplay apiSourceDisplay _ _ A)
          as (t & E' & _). congruence.
      * destruct (attempt_yields net priceDot priceDisplay apiSourceDisplay _ _ _ A)
          as (c & t & E' & _ & S' & _). congruence.
Qed.

End Page.

(** The result of a fetch and the page it leaves agree: either a value was
    returned, recorded, signalled and shown, or [null] was returned, nothing
    was signalled and the page shows the failure. *)
Lemma fetchBtcPrice_page net sources st :
  let dot := handle "price-dot" (dom st) in
  let disp := handle "btc-price" (dom st) in
  let label := handle "api-source" (dom st) in
  exists r st',
    fetchBtcPrice net sources st = (Normal r, st') /\
    ((events st' = (events st ++ [price_event r])%list /\
      btcPrice st' = r /\
      exists nm,
        currentApiSource st' = Some nm /\
        dom st' = shown_page dot disp label nm r (loading_page dot (dom st))) \/
     (events st' = events st /\
      r = VNull /\
      dom st' = failed_page dot disp (loading_page dot (dom st)))).
Proof.
  unfold handle, loading_page, failed_page, on_element. run_page.
  destruct (find_element "price-dot" (dom st)),
           (find_element "btc-price" (dom st)),
           (find_element "api-source" (dom st)); simpl;
    match goal with
    | |- context [for_of (attempt net ?pd ?pr ?asd) sources ?s] =>
        destruct (for_of_total net pd pr asd sources s) as (r & st2 & E);
        pose proof (for_of_page net pd pr asd sources _ _ _ E) as D;
        destruct (for_of_recorded net pd pr asd sources _ _ _ E)
          as (n & _ & [(_ & _ & _ & -> & Ev)
                      | (j & api & v & _ & _ & P & _ & _
                         & [(-> & Ev) | (-> & Ev)])]);
        rewrite E; simpl in *
    end;
    try (do 2 eexists; split; [reflexivity|]; right; simpl;
         rewrite D; auto; fail);
    destruct D as (nm & S' & D);
    do 2 eexists; (split; [reflexivity|]); left; eauto 10.
Qed.

Ltac find_in_page :=
  unfold shown_page, failed_page, loading_page, on_element;
  repeat first
    [ rewrite find_update_same
    | rewrite find_update_other by discriminate ].

(** The price dot never stays on "loading": after a fetch it is plain
    exactly when a price was signalled, and in error when [null] was
    returned with nothing signalled; its text is not touched. *)
Theorem price_dot_shows_outcome net sources st e :
  find_element "price-dot" (dom st) = Some e ->
  exists r st' e',
    fetchBtcPrice net sources st = (Normal r, st') /\
    find_element "price-dot" (dom st') = Some e' /\
    textContent e' = textContent e /\
    ((className e' = "price-dot" /\
      events st' = (events st ++ [price_event r])%list) \/
     (className e' = "price-dot error" /\
      events st' = events st /\ r = VNull)).
Proof.
  intros H.
  destruct (fetchBtcPrice_page net sources st)
    as (r & st' & R & [(Ev & _ & nm & _ & D) | (Ev & -> & D)]);
    unfold handle in D; try rewrite H in D;
    destruct (find_element "btc-price" (dom st)),
             (find_element "api-source" (dom st));
    (do 3 eexists; split; [exact R|]; rewrite D; find_in_page; rewrite H;
     simpl; split; [reflexivity|]; split; [reflexivity|]; auto).
Qed.

Lemma price_dot_shows_outcome_witness :
  exists r st' e',
    fetchBtcPrice net_missing_then_price API_SOURCES (initial page_with_ui)
      = (Normal r, st') /\
    find_element "price-dot" (dom st') = Some e' /\
    textContent e' = textContent (mkElement "price-dot" (Txt "")) /\
    ((className e' = "price-dot" /\
      events st'
      = (events (initial page_with_ui) ++ [price_event r])%list) \/
     (className e' = "price-dot error" /\
      events st' = events (initial page_with_ui) /\ r = VNull)).
Proof.
  apply (price_dot_shows_outcome net_missing_then_price API_SOURCES
           (initial page_with_ui) (mkElement "price-dot" (Txt ""))).
  reflexivity.
Defined.

(** The price display follows the result: after a fetch it shows the
    recorded price in euros when a price was signalled, and "sin conexión"
    when [null] was returned with nothing signalled; its class is not
    touched. *)
Theorem price_display_shows_outcome net sources st e :
  find_element "btc-price" (dom st) = Some e ->
  exists r st' e',
    fetchBtcPrice net sources st = (Normal r, st') /\
    find_element "btc-price" (dom st') = Some e' /\
    className e' = className e /\
    ((textContent e' = eur_text r /\
      btcPrice st' = r /\
      events st' = (events st ++ [price_event r])%list) \/
     (textContent e' = Txt "sin conexión" /\
      events st' = events st /\ r = VNull)).
Proof.
  intros H.
  destruct (fetchBtcPrice_page net sources st)
    as (r & st' & R & [(Ev & P & nm & _ & D) | (Ev & -> & D)]);
    unfold handle in D; try rewrite H in D;
    destruct (find_element "price-dot" (dom st)),
             (find_element "api-source" (dom st));
    (do 3 eexists; split; [exact R|]; rewrite D; find_in_page; rewrite H;
     simpl; split; [reflexivity|]; split; [reflexivity|]; auto).
Qed.

Lemma price_display_shows_outcome_witness :
  exists r st' e',
    fetchBtcPrice net_down API_SOURCES (state_with_price 50000)
      = (Normal r, st') /\
    find_element "btc-price" (dom st') = Some e' /\
    className e' = className (mkElement "" (Txt "--")) /\
    ((textContent e' = eur_text r /\
      btcPrice st' = r /\
      events st'
      = (events (state_with_price 50000) ++ [price_event r])%list) \/
     (textContent e' = Txt "sin conexión" /\
      events st' = events (state_with_price 50000) /\ r = VNull)).
Proof.
  apply (price_display_shows_outcome net_down API_SOURCES
           (state_with_price 50000) (mkElement "" (Txt "--"))).
  reflexivity.
Defined.

(** The source label is written on success only: it then names the
    recorded source; after a fetch that returns [null] with nothing
    signalled the label is exactly what it was, so it can name the source
    of an earlier price next to "sin conexión". *)
Theorem source_label_written_on_success_only net sources st e :
  find_element "api-source" (dom st) = Some e ->
  exists r st' e',
    fetchBtcPrice net sources st = (Normal r, st') /\
    find_element "api-source" (dom st') = Some e' /\
    ((exists nm,
        e' = mkElement (className e) (Txt ("vía " ++ nm)) /\
        currentApiSource st' = Some nm /\
        events st' = (events st ++ [price_event r])%list) \/
     (e' = e /\ events st' = events st /\ r = VNull)).
Proof.
  intros H.
  destruct (fetchBtcPrice_page net sources st)
    as (r & st' & R & [(Ev & P & nm & S' & D) | (Ev & -> & D)]);
    unfold handle in D; try rewrite H in D;
    destruct (find_element "price-dot" (dom st)),
             (find_element "btc-price" (dom st));
    (do 3 eexists; split; [exact R|]; rewrite D; find_in_page; rewrite H;
     simpl; split; [reflexivity|]; eauto 10).
Qed.

Lemma source_label_written_on_success_only_witness :
  exists r st' e',
    fetchBtcPrice net_down API_SOURCES (state_with_price 50000)
      = (Normal r, st') /\
    find_element "api-source" (dom st') = Some e' /\
    ((exists nm,
        e' = mkElement (className (mkElement "" (Txt "")))
                       (Txt ("vía " ++ nm)) /\
        currentApiSource st' = Some nm /\
        events st'
        = (events (state_with_price 50000) ++ [price_event r])%list) \/
     (e' = mkElement "" (Txt "") /\
      events st' = events (state_with_price 50000) /\ r = VNull)).
Proof.
  apply (source_label_written_on_success_only net_down API_SOURCES
           (state_with_price 50000) (mkElement "" (Txt ""))).
  reflexivity.
Defined.

(** ** Decimal text *)

Lemma to_digits_value fuel : forall n acc,
  (0 <= n < 10 ^ Z.of_nat fuel)%Z ->
  fold_left (fun a d => a * 10 + d)%Z (to_digits fuel n acc) 0%Z
  = fold_left (fun a d => a * 10 + d)%Z acc n.
Proof.
  induction fuel as [|k IH]; intros n acc H.
  - simpl in *. replace n with 0%Z by lia. reflexivity.
  - cbn [to_digits]. destruct (Z.ltb_spec n 10).
    + reflexivity.
    + rewrite IH.
      * simpl. f_equal. rewrite Z.mul_comm. symmetry.
        apply Z.div_mod. lia.
      * rewrite Nat2Z.inj_succ, Z.pow_succ_r in H by lia.
        split; [apply Z.div_pos; lia|].
        apply Z.div_lt_upper_bound; lia.
Qed.

Lemma to_digits_range fuel : forall n acc,
  (0 <= n)%Z -> Forall is_digit acc -> Forall is_digit (to_digits fuel n acc).
Proof.
  induction fuel as [|k IH]; intros n acc H F; cbn [to_digits]; [exact F|].
  destruct (Z.ltb_spec n 10).
  - constructor; [split; lia | exact F].
  - apply IH; [apply Z.div_pos; lia|].
    constructor; [|exact F]. apply Z.mod_pos_bound. lia.
Qed.

Lemma to_digits_length fuel : forall n acc,
  (List.length acc <= List.length (to_digits fuel n acc))%nat.
Proof.
  induction fuel as [|k IH]; intros n acc; cbn [to_digits]; [lia|].
  destruct (n <? 10)%Z; simpl; [lia|].
  specialize (IH (n / 10)%Z ((n mod 10)%Z :: acc)). simpl in IH. lia.
Qed.

Lemma decimal_digits_spec n :
  (0 <= n)%Z ->
  Z_of_digits 10 (decimal_digits n) = n /\
  Forall is_digit (decimal_digits n) /\
  (1 <= List.length (decimal_digits n))%nat.
Proof.
  intros H. unfold decimal_digits, Z_of_digits. repeat split.
  - rewrite to_digits_value; [reflexivity|].
    split; [exact H|].
    rewrite Nat2Z.inj_succ, Z2Nat.id by apply Z.log2_nonneg.
    destruct (Z.eq_dec n 0) as [->|N]; [reflexivity|].
    apply Z.lt_le_trans with (2 ^ Z.succ (Z.log2 n))%Z.
    + apply Z.log2_spec. lia.
    + apply Z.pow_le_mono_l. split; [lia|lia].
  - apply to_digits_range; [exact H | constructor].
  - cbn [to_digits]. destruct (n <? 10)%Z; simpl; [lia|].
    pose proof (to_digits_length (Z.to_nat (Z.log2 n)) (n / 10)%Z
                                 [(n mod 10)%Z]) as L.
    simpl in L. exact L.
Qed.

Lemma Z_of_digits_zeros k ds :
  Z_of_digits 10 (repeat 0%Z k ++ ds) = Z_of_digits 10 ds.
Proof.
  unfold Z_of_digits. rewrite fold_left_app. f_equal.
  induction k as [|k IH]; simpl; [reflexivity | exact IH].
Qed.

(** The digits that [fixed_point] lays out: those before the point are not
    empty, those after it are [f], and together they spell [n]. *)
Lemma fixed_point_digits f n :
  (0 <= n)%Z ->
  exists int frac,
    fixed_point f n
    = string_of_digits int
      ++ (if (f =? 0)%nat then "" else "." ++ string_of_digits frac) /\
    Forall is_digit int /\ Forall is_digit frac /\
    (1 <= List.length int)%nat /\
    List.length frac = f /\
    Z_of_digits 10 (int ++ frac) = n.
Proof.
  intros H. destruct (decimal_digits_spec n H) as (V & F & L).
  unfold fixed_point.
  set (ds := (repeat 0%Z (f + 1 - List.length (decimal_digits n))
                ++ decimal_digits n)%list).
  assert (Fd : Forall is_digit ds).
  { apply Forall_app. split; [|exact F].
    apply Forall_forall. intros x I. apply repeat_spec in I. subst.
    split; lia. }
  assert (Ld : (f + 1 <= List.length ds)%nat).
  { unfold ds. rewrite length_app, repeat_length. lia. }
  assert (Vd : Z_of_digits 10 ds = n).
  { unfold ds. rewrite Z_of_digits_zeros. exact V. }
  exists (firstn (List.length ds - f) ds), (skipn (List.length ds - f) ds).
  pose proof Fd as Fs.
  rewrite <- (firstn_skipn (List.length ds - f) ds) in Fs.
  apply Forall_app in Fs as [Ffirst Fskip].
  rewrite firstn_skipn. repeat split.
  - destruct (Nat.eqb_spec f 0) as [->|N]; [|reflexivity].
    rewrite Nat.sub_0_r, firstn_all.
    symmetry. clear. induction (string_of_digits ds); simpl; congruence.
  - exact Ffirst.
  - exact Fskip.
  - rewrite length_firstn. lia.
  - rewrite length_skipn. lia.
  - exact Vd.
Qed.

Lemma ten_pow_pos f : 0 < inject_Z (10 ^ Z.of_nat f).
Proof.
  change 0 with (inject_Z 0). rewrite <- Zlt_Qlt.
  apply Z.pow_pos_nonneg; lia.
Qed.

(** [toFixed] of a number from 0 up to [10^21]: the fixed-point text of the
    whole number of [10^-f] nearest to it. *)
Lemma toFixed_fixed_point f q :
  0 <= q -> q < TEN_POW_21 ->
  let n := Qfloor (q * inject_Z (10 ^ Z.of_nat f) + (1 # 2)) in
  toFixed f (Fin q) = lit (fixed_point f n) /\ (0 <= n)%Z.
Proof.
  intros H0 H21 n.
  pose proof (ten_pow_pos f) as Pp.
  split.
  - unfold toFixed. apply Qle_bool_iff in H0. rewrite H0. simpl negb.
    cbv iota.
    destruct (Qle_bool TEN_POW_21 q) eqn:B;
      [apply Qle_bool_iff in B; lra | reflexivity].
  - unfold n. change 0%Z with (Qfloor 0). apply Qfloor_resp_le.
    assert (0 <= q * inject_Z (10 ^ Z.of_nat f))
      by (apply Qmult_le_0_compat; lra).
    lra.
Qed.

(** ** Amounts on screen *)

(** [formatBtc] of an amount from 0 up to [10^21]: digits, a point, exactly
    eight digits and " BTC".  The digits spell the whole number of satoshis
    nearest to the amount (of two, the larger), so the number shown is
    within half a satoshi of the exact value of the amount. *)
Theorem formatBtc_nearest_satoshi (q : Q) :
  0 <= q -> q < TEN_POW_21 ->
  exists int frac,
    formatBtc (Fin q)
    = lit ((string_of_digits int ++ "." ++ string_of_digits frac) ++ " BTC") /\
    Forall is_digit int /\ Forall is_digit frac /\
    (1 <= List.length int)%nat /\ List.length frac = 8%nat /\
    Z_of_digits 10 (int ++ frac) = Qfloor (q * 100000000 + (1 # 2)) /\
    Qabs (inject_Z (Z_of_digits 10 (int ++ frac)) - q * 100000000) <= 1 # 2.
Proof.
  intros H0 H21.
  destruct (toFixed_fixed_point 8 q H0 H21) as (T & Hn).
  destruct (fixed_point_digits 8 _ Hn)
    as (int & frac & S & Fi & Ff & Li & Lf & V).
  simpl Nat.eqb in S. cbv iota in S.
  change (inject_Z (10 ^ Z.of_nat 8)) with 100000000 in T, V.
  exists int, frac. unfold formatBtc. rewrite T, <- S.
  repeat split; try assumption.
  rewrite V.
  destruct (round_half (q * 100000000)) as [Lo Hi].
  apply Qabs_Qle_condition. split; lra.
Qed.

Lemma formatBtc_nearest_satoshi_witness :
  exists int frac,
    formatBtc (Fin 0.015625)
    = lit ((string_of_digits int ++ "." ++ string_of_digits frac) ++ " BTC") /\
    Forall is_digit int /\ Forall is_digit frac /\
    (1 <= List.length int)%nat /\ List.length frac = 8%nat /\
    Z_of_digits 10 (int ++ frac) = Qfloor (0.015625 * 100000000 + (1 # 2)) /\
    Qabs (inject_Z (Z_of_digits 10 (int ++ frac)) - 0.015625 * 100000000)
    <= 1 # 2.
Proof.
  apply (formatBtc_nearest_satoshi 0.015625); [discriminate | reflexivity].
Defined.

Example formatting_samples :
  formatBtc (Fin 0.015625) = lit "0.01562500 BTC" /\
  formatBtc (Fin 1.5) = lit "1.50000000 BTC" /\
  formatBtc (Fin 0) = lit "0.00000000 BTC" /\
  formatBtc (Fin (-0.5)) = lit "-0.50000000 BTC" /\
  formatBtc NaN = lit "NaN BTC".
Proof. vm_compute. repeat split. Qed.

(** ** The parse rules *)

(** The two rules that read [data.outer.inner] throw, a [TypeError], exactly
    when [data] or [data.outer] is [undefined] or [null]; a missing inner
    key alone does not throw, the rule then returns [undefined]; and a
    document that has both keys parses to what is stored there. *)
Theorem two_level_rules_missing_keys (data : value) :
  (forall e,
     parse_CoinGecko data = Throw e <->
     e = TypeError /\
     (nullish data = true \/
      exists b, get_prop data "bitcoin" = Normal b /\ nullish b = true)) /\
  (forall e,
     parse_Blockchain data = Throw e <->
     e = TypeError /\
     (nullish data = true \/
      exists b, get_prop data "EUR" = Normal b /\ nullish b = true)) /\
  (forall props inner,
     data = VObj props ->
     lookup "bitcoin" props = Some (VObj inner) ->
     parse_CoinGecko data
     = Normal (match lookup "eur" inner with
               | Some v => v
               | None => VUndefined
               end)) /\
  (forall props inner,
     data = VObj props ->
     lookup "EUR" props = Some (VObj inner) ->
     parse_Blockchain data
     = Normal (match lookup "last" inner with
               | Some v => v
               | None => VUndefined
               end)).
Proof.
  assert (G : forall k1 k2 e,
    cbind (get_prop data k1) (fun b => get_prop b k2) = Throw e <->
    e = TypeError /\
    (nullish data = true \/
     exists b, get_prop data k1 = Normal b /\ nullish b = true)).
  { intros k1 k2 e. split.
    - destruct (get_prop data k1) as [b|e'] eqn:A; simpl.
      + intros B. assert (nullish b = true /\ e = TypeError) as [Nb ->].
        { destruct b; simpl in *; try discriminate; try destruct (lookup k2 props);
            try discriminate; injection B as <-; auto. }
        split; [reflexivity|]. right. eauto.
      + intros [= ->]. destruct data; simpl in *; try discriminate;
          try (destruct (lookup k1 props); discriminate);
          injection A as <-; auto.
    - intros (-> & [N | (b & A & N)]).
      + destruct data; simpl in *; try discriminate; reflexivity.
      + rewrite A. destruct b; simpl in *; try discriminate; reflexivity. }
  split; [intros e; apply G|]. split; [intros e; apply G|]. split.
  - intros props inner -> L. unfold parse_CoinGecko. simpl. rewrite L. simpl.
    destruct (lookup "eur" inner); reflexivity.
  - intros props inner -> L. unfold parse_Blockchain. simpl. rewrite L. simpl.
    destruct (lookup "last" inner); reflexivity.
Qed.

(** The rule of CoinCap returns a number whenever it returns. *)
Lemma CoinCap_numeric : numeric_rule CoinCap.
Proof.
  intros data v. simpl. unfold parse_CoinCap.
  destruct (get_prop data "data") as [d|]; simpl; [|discriminate].
  destruct (get_prop d "priceUsd") as [p|]; simpl; [|discriminate].
  destruct (parseFloat p) as [n|]; simpl; [|discriminate].
  intros [= <-]. eauto.
Qed.

Lemma numeric_rules_shown net sources :
  (forall api, In api sources -> numeric_rule api) ->
  forall k, all_shown net k sources = true.
Proof.
  induction sources as [|a rest IH]; intros N k; simpl; [reflexivity|].
  rewrite IH by (intros api I; apply N; right; exact I).
  rewrite andb_true_r. unfold answer_of.
  destruct (net k (url a)) as [|[[] [|d]]]; simpl; try reflexivity.
  destruct (parsePrice a d) as [v|] eqn:P; [|reflexivity].
  destruct (N a (or_introl eq_refl) d v P) as (n & ->). reflexivity.
Qed.

(** Over sources whose rules return numbers only, as the rule of CoinCap
    does, a fetch does the same with and without the presentation
    elements: from two states that differ in the page at most it returns
    the same result and records the same price and source. *)
Theorem numeric_rules_ignore_page net sources st1 st2 :
  (forall api, In api sources -> numeric_rule api) ->
  same_record st1 st2 ->
  fst (fetchBtcPrice net sources st1) = fst (fetchBtcPrice net sources st2) /\
  same_record (snd (fetchBtcPrice net sources st1))
              (snd (fetchBtcPrice net sources st2)).
Proof.
  intros N S. apply fetchBtcPrice_same_record; [exact S|].
  apply numeric_rules_shown, N.
Qed.

Lemma numeric_rules_ignore_page_witness :
  fst (fetchBtcPrice (replies [ok_json (VObj [("data", VObj [])])]) [CoinCap]
         (initial page_with_ui))
  = fst (fetchBtcPrice (replies [ok_json (VObj [("data", VObj [])])]) [CoinCap]
           (initial page_without_ui)) /\
  same_record
    (snd (fetchBtcPrice (replies [ok_json (VObj [("data", VObj [])])])
            [CoinCap] (initial page_with_ui)))
    (snd (fetchBtcPrice (replies [ok_json (VObj [("data", VObj [])])])
            [CoinCap] (initial page_without_ui))).
Proof.
  apply (numeric_rules_ignore_page
           (replies [ok_json (VObj [("data", VObj [])])]) [CoinCap]
           (initial page_with_ui) (initial page_without_ui)).
  - intros api [<-|[]]. exact CoinCap_numeric.
  - repeat split.
Defined.

(** ** Sharing *)

Lemma hex_char_spec k :
  (k < 16)%nat ->
  is_unreserved (hex_char k) = true /\ hex_value (hex_char k) = k.
Proof.
  intros H.
  do 16 (destruct k as [|k]; [split; reflexivity|]).
  lia.
Qed.

Lemma count_char_app c a b :
  count_char c (a ++ b) = (count_char c a + count_char c b)%nat.
Proof.
  induction a as [|d a IH]; cbn [append count_char]; [reflexivity|].
  rewrite IH. lia.
Qed.

Lemma unreserved_differs d c :
  is_unreserved d = true -> is_unreserved c = false -> Ascii.eqb d c = false.
Proof.
  intros Hd Hc. destruct (Ascii.eqb_spec d c); [congruence | reflexivity].
Qed.

(** A character that is neither unreserved nor the percent sign does not
    occur in an escaped string. *)
Lemma count_char_escaped c s :
  is_unreserved c = false -> Ascii.eqb "%" c = false ->
  count_char c (encodeURIComponent s) = 0%nat.
Proof.
  intros Hc Hp. induction s as [|d s IH]; [reflexivity|].
  cbn [encodeURIComponent]. rewrite count_char_app, IH, Nat.add_0_r.
  destruct (is_unreserved d) eqn:U.
  - cbn [count_char]. rewrite (unreserved_differs d c U Hc). reflexivity.
  - unfold percent_encode. cbn [count_char]. rewrite Hp.
    pose proof (nat_ascii_bounded d) as B.
    destruct (hex_char_spec (nat_of_ascii d / 16)) as [U1 _].
    { apply Nat.Div0.div_lt_upper_bound. exact B. }
    destruct (hex_char_spec (nat_of_ascii d mod 16)) as [U2 _].
    { apply Nat.mod_upper_bound. discriminate. }
    rewrite (unreserved_differs _ c U1 Hc), (unreserved_differs _ c U2 Hc).
    reflexivity.
Qed.

(** Whatever the text and the link, the address that [shareOnTwitter]
    opens has exactly the two parameters [text] and [url]: the characters
    [&], [=], [?], [#] and the blank of the arguments are escaped, so the
    address holds one [?], one [&], two [=], no [#] and no blank.  It opens
    in a new window. *)
Theorem shareOnTwitter_two_parameters (text : string) (url : option string) :
  let call := shareOnTwitter text url in
  count_char "?" (open_url call) = 1%nat /\
  count_char "&" (open_url call) = 1%nat /\
  count_char "=" (open_url call) = 2%nat /\
  count_char "#" (open_url call) = 0%nat /\
  count_char " " (open_url call) = 0%nat /\
  open_target call = "_blank".
Proof.
  unfold shareOnTwitter. cbn [open_url open_target].
  rewrite !count_char_app.
  rewrite !(count_char_escaped "?"), !(count_char_escaped "&"),
    !(count_char_escaped "="), !(count_char_escaped "#"),
    !(count_char_escaped " ") by reflexivity.
  repeat split.
Qed.

Lemma unescape_encode s : unescape (encodeURIComponent s) = s.
Proof.
  induction s as [|c s IH]; [reflexivity|].
  cbn [encodeURIComponent]. destruct (is_unreserved c) eqn:U.
  - cbn [append unescape].
    rewrite (unreserved_differs c "%" U eq_refl), IH. reflexivity.
  - unfold percent_encode. cbn [append unescape].
    change (Ascii.eqb "%" "%") with true. cbv iota.
    pose proof (nat_ascii_bounded c) as B.
    destruct (hex_char_spec (nat_of_ascii c / 16)) as [_ ->].
    { apply Nat.Div0.div_lt_upper_bound. exact B. }
    destruct (hex_char_spec (nat_of_ascii c mod 16)) as [_ ->].
    { apply Nat.mod_upper_bound. discriminate. }
    rewrite IH. f_equal.
    rewrite Nat.mul_comm, <- Nat.div_mod_eq. apply ascii_nat_embedding.
Qed.

Lemma append_cancel_l p a b : p ++ a = p ++ b -> a = b.
Proof.
  induction p as [|c p IH]; cbn [append]; [auto|].
  intros [= H]. auto.
Qed.

Lemma split_at_separator a1 : forall a2 b1 b2,
  count_char "&" a1 = 0%nat -> count_char "&" a2 = 0%nat ->
  a1 ++ "&url=" ++ b1 = a2 ++ "&url=" ++ b2 ->
  a1 = a2 /\ b1 = b2.
Proof.
  induction a1 as [|c a1 IH]; intros [|d a2] b1 b2 C1 C2;
    cbn [append count_char] in *.
  - intros [= H]. auto.
  - intros [= <- _]. discriminate C2.
  - intros [= -> _]. discriminate C1.
  - intros [= <- H].
    destruct (IH a2 b1 b2) as [-> ->]; auto; lia.
Qed.

(** Different shares open different addresses: from the address that
    [shareOnTwitter] opens, the text and the link are determined. *)
Theorem shareOnTwitter_injective (t1 t2 : string) (u1 u2 : option string) :
  open_url (shareOnTwitter t1 u1) = open_url (shareOnTwitter t2 u2) ->
  t1 = t2 /\ url_or_site u1 = url_or_site u2.
Proof.
  unfold shareOnTwitter. cbn [open_url]. intros H.
  apply append_cancel_l in H.
  apply split_at_separator in H;
    try (apply count_char_escaped; reflexivity).
  destruct H as [Ht Hu].
  split.
  - rewrite <- (unescape_encode t1), Ht. apply unescape_encode.
  - rewrite <- (unescape_encode (url_or_site u1)), Hu. apply unescape_encode.
Qed.

Lemma shareOnTwitter_injective_witness :
  "Hola" = "Hola" /\ url_or_site None = url_or_site (Some SITE_URL).
Proof.
  apply (shareOnTwitter_injective "Hola" "Hola" None (Some SITE_URL)).
  reflexivity.
Defined.

Example shareOnTwitter_sample :
  open_url (shareOnTwitter "1 BTC = 50000 & more?" None)
  = "https://twitter.com/intent/tweet?text=1%20BTC%20%3D%2050000%20%26%20more%3F&url=https%3A%2F%2Fbitcoincalculadora.com".
Proof. vm_compute. reflexivity. Qed.

(** ** The console *)

Lemma attempt_warns net pd disp asd api st :
  answer_of net (List.length (requests st)) api = Fails ->
  exists st',
    attempt net pd disp asd api st = (Normal Continue, st') /\
    requests st' = (requests st ++ [url api])%list /\
    warnings st'
    = (warnings st
       ++ match thrown_by net (List.length (requests st)) api with
          | Some e => [(("API " ++ name api ++ " falló:")%string, e)]
          | None => []
          end)%list.
Proof.
  unfold answer_of, thrown_by. run_js.
  destruct (net _ _) as [|[[] [|d]]]; simpl;
    try (intros _; eexists; repeat split; rewrite ?app_nil_r; reflexivity).
  destruct (parsePrice api d) as [v|e]; simpl; [discriminate|].
  intros _. eexists. repeat split.
Qed.

Lemma for_of_warns net pd disp asd apis : forall st,
  all_fail net (List.length (requests st)) apis = true ->
  exists st',
    for_of (attempt net pd disp asd) apis st = (Normal None, st') /\
    warnings st'
    = (warnings st ++ warnings_of net (List.length (requests st)) apis)%list.
Proof.
  induction apis as [|a rest IH]; intros st; cbn [all_fail for_of warnings_of].
  - intros _. exists st. rewrite app_nil_r. split; reflexivity.
  - destruct (answer_of net _ a) eqn:A; [|discriminate].
    intros F. unfold bind.
    destruct (attempt_warns net pd disp asd a st A) as (st1 & E & Hr & Hw).
    rewrite E.
    assert (L : List.length (requests st1) = S (List.length (requests st)))
      by (rewrite Hr, length_app, Nat.add_1_r; reflexivity).
    destruct (IH st1) as (st2 & E2 & Hw2); [rewrite L; exact F|].
    exists st2. rewrite E2, Hw2, Hw, L, <- app_assoc. split; reflexivity.
Qed.

(** When every source fails outright, the console gets one warning for
    each source that threw (request rejected, body not JSON, rule threw),
    naming the source, in the order asked, and none for a source that
    answered with a status that is not ok: such a source is skipped
    silently. *)
Theorem failed_fetch_warnings net sources st :
  all_fail net (List.length (requests st)) sources = true ->
  exists st',
    fetchBtcPrice net sources st = (Normal VNull, st') /\
    warnings st'
    = (warnings st ++ warnings_of net (List.length (requests st)) sources)%list /\
    ((forall j api,
        nth_error sources j = Some api ->
        exists r, net (List.length (requests st) + j)%nat (url api)
                  = Responded (mkResponse false r)) ->
     warnings st' = warnings st).
Proof.
  intros F. run_page.
  assert (Silent : forall apis k,
    (forall j api, nth_error apis j = Some api ->
       exists r, net (k + j)%nat (url api) = Responded (mkResponse false r)) ->
    warnings_of net k apis = []).
  { induction apis as [|a rest IH]; intros k Q; cbn [warnings_of]; [reflexivity|].
    destruct (Q 0%nat a eq_refl) as (r & Hr). rewrite Nat.add_0_r in Hr.
    unfold thrown_by. rewrite Hr. simpl. apply IH.
    intros j api N. replace (S k + j)%nat with (k + S j)%nat by lia.
    apply (Q (S j)). exact N. }
  destruct (find_element "price-dot" (dom st)),
           (find_element "btc-price" (dom st)),
           (find_element "api-source" (dom st)); simpl;
    match goal with
    | |- context [for_of (attempt net ?pd ?pr ?asd) sources ?s] =>
        destruct (for_of_warns net pd pr asd sources s F) as (st2 & E & W);
        simpl in W
    end;
    rewrite E; simpl; eexists; (split; [reflexivity|]); simpl;
    (split; [exact W|]); intros Q; rewrite W, (Silent _ _ Q);
    apply app_nil_r.
Qed.

Lemma failed_fetch_warnings_witness :
  exists st',
    fetchBtcPrice net_down API_SOURCES (initial page_with_ui)
      = (Normal VNull, st') /\
    warnings st'
    = (warnings (initial page_with_ui)
       ++ warnings_of net_down
            (List.length (requests (initial page_with_ui))) API_SOURCES)%list /\
    ((forall j api,
        nth_error API_SOURCES j = Some api ->
        exists r,
          net_down (List.length (requests (initial page_with_ui)) + j)%nat
                   (url api)
          = Responded (mkResponse false r)) ->
     warnings st' = warnings (initial page_with_ui)).
Proof.
  apply (failed_fetch_warnings net_down API_SOURCES (initial page_with_ui)).
  reflexivity.
Defined.

Example warnings_when_down :
  warnings (snd (fetchBtcPrice net_down API_SOURCES (initial page_with_ui)))
  = [ ("API CoinGecko falló:", NetworkError);
      ("API Blockchain.info falló:", NetworkError);
      ("API CoinCap falló:", NetworkError) ].
Proof. vm_compute. reflexivity. Qed.
